(** * OIDC JWT issuer: key rotation and token lifecycle

    A shallow embedding of the Flows OIDC app ([main.ts], [src/crypto.ts],
    [src/handlers.ts], [src/types.ts]) and the properties of its
    reconciliation pass, rotation wakeup and JWKS handler.

    Conventions of the embedding.
    - A JavaScript string is a sequence of UTF-16 code units; the model
      covers strings whose code units are below 256, one [ascii] each.
    - A JavaScript number is modelled by an integer of [Z]; the app only
      does integer arithmetic on minutes and seconds. Integers are rendered
      in decimal digits, as JavaScript renders them below 10^21.
    - A JavaScript object is an association list in property order.
    - The platform SDK ([kv], [timers], [lifecycle], [http]), the Web
      Crypto calls and the clock act on an explicit [World]; a call that
      may reject reads the next entry of a fault schedule. *)

From Stdlib Require Import ZArith List String Ascii Lia Znumtheory Zpow_facts.
From Stdlib Require Import DecimalString DecimalZ.
From stdpp Require Import base option gmap strings fin_maps.

Local Open Scope Z_scope.
Local Open Scope string_scope.

(** ** JSON values and [JSON.stringify] *)

Set Warnings "-register-all".

Inductive json : Type :=
| JNull
| JBool (b : bool)
| JNum (z : Z)
| JStr (s : string)
| JArr (l : list json)
| JObj (l : list (string * json)).

(** Objects as the code handles them: properties in enumeration order. *)
Abbreviation obj := (list (string * json)).

(** [o[k]] : the value of property [k], if present. *)
Fixpoint obj_get (k : string) (o : obj) : option json :=
  match o with
  | [] => None
  | (k', v) :: o' => if String.eqb k' k then Some v else obj_get k o'
  end.

(** [o[k] = v] : an existing property keeps its position and takes the new
    value, a new property is added last. *)
Fixpoint obj_set (k : string) (v : json) (o : obj) : obj :=
  match o with
  | [] => [(k, v)]
  | (k', v') :: o' =>
      if String.eqb k' k then (k', v) :: o' else (k', v') :: obj_set k v o'
  end.

(** [{ ...src }] copied onto [o]: every own property of [src] is set in
    order. *)
Definition obj_spread (src : obj) (o : obj) : obj :=
  fold_left (fun acc kv => obj_set (fst kv) (snd kv) acc) src o.

(** Decimal rendering of an integer, as [Number.prototype.toString] and
    [JSON.stringify] give it for integers of magnitude below 10^21. *)
Definition string_of_Z (z : Z) : string :=
  NilZero.string_of_int (Z.to_int z).

Definition hex_digit (n : N) : ascii :=
  match n with
  | 0%N => "0" | 1%N => "1" | 2%N => "2" | 3%N => "3" | 4%N => "4"
  | 5%N => "5" | 6%N => "6" | 7%N => "7" | 8%N => "8" | 9%N => "9"
  | 10%N => "a" | 11%N => "b" | 12%N => "c" | 13%N => "d" | 14%N => "e"
  | _ => "f"
  end%char.

(** The characters [JSON.stringify] treats specially. *)
Definition dquote : ascii := ascii_of_N 34.
Definition backslash : ascii := ascii_of_N 92.

Definition escape (tail : string) : string := String backslash tail.

(** One code unit inside a quoted JSON string (QuoteJSONString). *)
Definition quote_char (c : ascii) : string :=
  let n := N_of_ascii c in
  if (n =? 8)%N then escape "b"
  else if (n =? 9)%N then escape "t"
  else if (n =? 10)%N then escape "n"
  else if (n =? 12)%N then escape "f"
  else if (n =? 13)%N then escape "r"
  else if (n =? 34)%N then escape (String dquote EmptyString)
  else if (n =? 92)%N then escape (String backslash EmptyString)
  else if (n <? 32)%N then
    escape ("u00" ++ String (hex_digit (n / 16))
                       (String (hex_digit (n mod 16)) EmptyString))
  else String c EmptyString.

Fixpoint quote_chars (s : string) : string :=
  match s with
  | EmptyString => EmptyString
  | String c s' => quote_char c ++ quote_chars s'
  end.

Definition quote (s : string) : string :=
  String dquote (quote_chars s ++ String dquote EmptyString).

(** [JSON.stringify] without indentation. *)
Fixpoint stringify (j : json) : string :=
  match j with
  | JNull => "null"
  | JBool true => "true"
  | JBool false => "false"
  | JNum z => string_of_Z z
  | JStr s => quote s
  | JArr l =>
      let fix items (l : list json) : string :=
        match l with
        | [] => EmptyString
        | [x] => stringify x
        | x :: l' => stringify x ++ "," ++ items l'
        end in
      "[" ++ items l ++ "]"
  | JObj l =>
      let fix members (l : list (string * json)) : string :=
        match l with
        | [] => EmptyString
        | [(k, v)] => quote k ++ ":" ++ stringify v
        | (k, v) :: l' => quote k ++ ":" ++ stringify v ++ "," ++ members l'
        end in
      "{" ++ members l ++ "}"
  end.

(** An object literal with optional members: a member whose value is
    [undefined] is left out by [JSON.stringify]. *)
Fixpoint defined_members (l : list (string * option json)) : obj :=
  match l with
  | [] => []
  | (k, Some v) :: l' => (k, v) :: defined_members l'
  | (_, None) :: l' => defined_members l'
  end.

(** ** [src/types.ts] *)

Record AppConfig : Type := mkConfig {
  expirationMinutes : Z;
  audience : option string;
  additionalClaims : option obj;
  keyring : option string
}.

Module CONSTANTS.
Module KEY_STORE.
Definition getKeyPrefix (keyring : string) : string :=
  "key:" ++ keyring ++ ":".
Definition CURRENT_TOKEN_KEY : string := "current_token".
Definition ROTATION_TIMER_KEY : string := "rotation_timer_id".
End KEY_STORE.
Definition KEY_GRACE_PERIOD_MINUTES : Z := 30.
Definition ALGORITHM : string := "RS256".
(** [this.CACHE_CONTROL_HEADER] is not a member of [CONSTANTS]: the header
    value is [undefined]. *)
Definition DISCOVERY_RESPONSE_HEADERS : list (string * option string) :=
  [ ("Content-Type", Some "application/json; charset=utf-8");
    ("Cache-Control", None) ].
Definition JWKS_RESPONSE_HEADERS : list (string * option string) :=
  [ ("Content-Type", Some "application/json; charset=utf-8");
    ("Cache-Control", Some "no-cache") ].
End CONSTANTS.

(** ** [src/crypto.ts]: the configuration fingerprint *)

(** [ToInt32]: the signed 32-bit value of an integer. *)
Definition to_int32 (z : Z) : Z := (z + 2 ^ 31) mod 2 ^ 32 - 2 ^ 31.

Definition charCodeAt (c : ascii) : Z := Z.of_N (N_of_ascii c).

(** One round of the loop: [hash = (hash << 5) - hash + char; hash = hash & hash]. *)
Definition hash_step (hash : Z) (c : ascii) : Z :=
  let hash := to_int32 (Z.shiftl hash 5) - hash + charCodeAt c in
  to_int32 hash.

Fixpoint hash_loop (hash : Z) (s : string) : Z :=
  match s with
  | EmptyString => hash
  | String c s' => hash_loop (hash_step hash c) s'
  end.

(** The object handed to [JSON.stringify] by [hashConfig]. *)
Definition config_subset (config : AppConfig) : json :=
  JObj (defined_members
    [ ("expirationMinutes", Some (JNum (expirationMinutes config)));
      ("audience", JStr <$> audience config);
      ("additionalClaims", JObj <$> additionalClaims config);
      ("keyring", JStr <$> keyring config) ]).

Definition hashConfig (config : AppConfig) : string :=
  let configStr := stringify (config_subset config) in
  string_of_Z (hash_loop 0 configStr).

(** ** Values and records of the app *)

(** [new URL(appUrl)]: the app URL as the platform hands it over, with the
    two components the app reads. *)
Record Url : Type := mkUrl {
  href : string;
  origin : string;
  hostname : string
}.

(** A signed JWT. The compact serialisation is determined by the protected
    header, the payload and the signing key; the model keeps the three. *)
Record JWT : Type := mkJWT {
  jwt_header : obj;
  jwt_payload : obj;
  jwt_key : obj
}.

Record TokenData : Type := mkTokenData {
  token : JWT;
  expiresAt : Z;
  configHash : string
}.

(** Handle of a scheduled wakeup, as [timers.set] returns it. *)
Definition TimerId : Type := nat.

(** What the app keeps in the key-value store. *)
Inductive kv_value : Type :=
| VKey (jwk : obj)
| VToken (tokenData : TokenData)
| VTimer (timerId : TimerId).

(** A stored record; [kv_expiresAt] is set for a record written with a TTL. *)
Record kv_entry : Type := mkEntry {
  kv_value_of : kv_value;
  kv_createdAt : Z;
  kv_expiresAt : option Z
}.

Record Timer : Type := mkTimer {
  timer_id : TimerId;
  timer_delay : Z;
  timer_description : string
}.

Record Response : Type := mkResponse {
  statusCode : Z;
  headers : list (string * option string);
  body : json
}.

(** [app.signals] *)
Record Signals : Type := mkSignals {
  sig_token : option JWT;
  sig_expiresAt : option Z;
  sig_issuer : option string;
  sig_keyring : option string
}.

(** The [app] argument of the handlers. *)
Record App : Type := mkApp {
  app_config : AppConfig;
  app_url : Url;
  app_signals : Signals
}.

(** [signalUpdates] of a sync result. *)
Record SignalUpdates : Type := mkUpdates {
  su_token : JWT;
  su_expiresAt : Z;
  su_issuer : string;
  su_keyring : option string
}.

Inductive SyncResult : Type :=
| Ready (signalUpdates : SignalUpdates)
| Failed (customStatusDescription : string).

(** ** The world the handlers act on *)

(** The external operations that may reject. *)
Inductive Op : Type :=
| OpGenerateKey | OpSign
| OpKvGet | OpKvSet | OpKvSetMany | OpKvList
| OpTimersSet | OpTimersUnset
| OpLifecycleSync.

(** What the random source yields at each draw. *)
Record Entropy : Type := mkEntropy {
  uuid_at : nat -> string;
  keypair_at : nat -> obj * obj
}.

Record World : Type := mkWorld {
  clock_ms : Z;                      (* Date.now() *)
  kv : gmap string kv_entry;         (* kv.app *)
  armed : list Timer;                (* wakeups armed and not yet fired *)
  next_timer : TimerId;
  sync_requests : nat;               (* lifecycle.sync() calls accepted *)
  outbox : list (string * Response); (* http.respond *)
  rng : Entropy;
  drawn : nat;
  page_size : nat;                   (* page limit of kv.app.list *)
  faults : list bool                 (* true: the next fallible call rejects *)
}.

Definition set_kv (m : gmap string kv_entry) (w : World) : World :=
  mkWorld (clock_ms w) m (armed w) (next_timer w) (sync_requests w)
          (outbox w) (rng w) (drawn w) (page_size w) (faults w).

Definition set_timers (l : list Timer) (n : TimerId) (w : World) : World :=
  mkWorld (clock_ms w) (kv w) l n (sync_requests w)
          (outbox w) (rng w) (drawn w) (page_size w) (faults w).

Definition set_sync_requests (n : nat) (w : World) : World :=
  mkWorld (clock_ms w) (kv w) (armed w) (next_timer w) n
          (outbox w) (rng w) (drawn w) (page_size w) (faults w).

Definition set_outbox (l : list (string * Response)) (w : World) : World :=
  mkWorld (clock_ms w) (kv w) (armed w) (next_timer w) (sync_requests w)
          l (rng w) (drawn w) (page_size w) (faults w).

Definition set_drawn (n : nat) (w : World) : World :=
  mkWorld (clock_ms w) (kv w) (armed w) (next_timer w) (sync_requests w)
          (outbox w) (rng w) n (page_size w) (faults w).

Definition set_faults (l : list bool) (w : World) : World :=
  mkWorld (clock_ms w) (kv w) (armed w) (next_timer w) (sync_requests w)
          (outbox w) (rng w) (drawn w) (page_size w) l.

(** ** Effects: state and exceptions *)

Inductive Outcome (A : Type) : Type :=
| Ok (a : A)
| Thrown (e : Op).
Arguments Ok {A} a.
Arguments Thrown {A} e.

Definition M (A : Type) : Type := World -> Outcome A * World.

Definition ret {A : Type} (a : A) : M A := fun w => (Ok a, w).

Definition throw {A : Type} (e : Op) : M A := fun w => (Thrown e, w).

Definition bind {A B : Type} (m : M A) (k : A -> M B) : M B :=
  fun w =>
    match m w with
    | (Ok a, w') => k a w'
    | (Thrown e, w') => (Thrown e, w')
    end.

(** [try { m } catch (error) { h error }]: what [m] did before it threw
    stays done. *)
Definition try_catch {A : Type} (m : M A) (h : Op -> M A) : M A :=
  fun w =>
    match m w with
    | (Ok a, w') => (Ok a, w')
    | (Thrown e, w') => h e w'
    end.

Definition gets {A : Type} (f : World -> A) : M A := fun w => (Ok (f w), w).

Definition modify (f : World -> World) : M unit := fun w => (Ok tt, f w).

Notation "'let*' x ':=' m 'in' k" := (bind m (fun x => k))
  (at level 10, x name, m at level 100, k at level 200, only parsing).
Notation "m1 ';;;' m2" := (bind m1 (fun _ => m2))
  (at level 100, right associativity, only parsing).

(** A call of an external operation: it rejects when the fault schedule says
    so, before it has any effect. *)
Definition fallible (op : Op) : M unit :=
  fun w =>
    match faults w with
    | [] => (Ok tt, w)
    | true :: rest => (Thrown op, set_faults rest w)
    | false :: rest => (Ok tt, set_faults rest w)
    end.

(** ** The platform SDK *)

Definition now_s (w : World) : Z := clock_ms w / 1000.

(** A record is live until its expiry time. *)
Definition live (now : Z) (e : kv_entry) : bool :=
  match kv_expiresAt e with
  | None => true
  | Some t => (now <? t)%Z
  end.

Definition store_put (key : string) (e : kv_entry) (m : gmap string kv_entry)
  : gmap string kv_entry := <[key := e]> m.

Definition store_get (key : string) (m : gmap string kv_entry)
  : option kv_entry := m !! key.

(** One [{ key, value, ttl }] item. *)
Record KvItem : Type := mkItem {
  item_key : string;
  item_value : kv_value;
  item_ttl : option Z
}.

Definition kv_write (now : Z) (m : gmap string kv_entry) (it : KvItem)
  : gmap string kv_entry :=
  store_put (item_key it)
    (mkEntry (item_value it) now ((fun ttl => now + ttl) <$> item_ttl it)) m.

(** [kv.app.get(key)]: the value of a live record, [undefined] otherwise. *)
Definition kv_get (key : string) : M (option kv_value) :=
  fallible OpKvGet ;;;
  gets (fun w =>
    match store_get key (kv w) with
    | Some e => if live (now_s w) e then Some (kv_value_of e) else None
    | None => None
    end).

(** [kv.app.set({ key, value, ttl })] *)
Definition kv_set (it : KvItem) : M unit :=
  fallible OpKvSet ;;;
  modify (fun w => set_kv (kv_write (now_s w) (kv w) it) w).

(** [kv.app.setMany([...])]: the items are written together. *)
Definition kv_setMany (items : list KvItem) : M unit :=
  fallible OpKvSetMany ;;;
  modify (fun w => set_kv (fold_left (kv_write (now_s w)) items (kv w)) w).

Fixpoint drop_until (key : string) (l : list (string * kv_entry))
  : list (string * kv_entry) :=
  match l with
  | [] => []
  | p :: l' => if String.eqb (fst p) key then l else drop_until key l'
  end.

(** [kv.app.list({ keyPrefix, startingKey })]: one page of the live records
    under the prefix, and the key at which the next page starts. *)
Definition kv_list (keyPrefix : string) (startingKey : option string)
  : M (list (string * kv_value) * option string) :=
  fallible OpKvList ;;;
  gets (fun w =>
    let all := List.filter
                 (fun p => String.prefix keyPrefix (fst p) && live (now_s w) (snd p))
                 (map_to_list (kv w)) in
    let rest := match startingKey with
                | None => all
                | Some k => drop_until k all
                end in
    let n := Nat.max 1 (page_size w) in
    (map (fun p => (fst p, kv_value_of (snd p))) (firstn n rest),
     fst <$> hd_error (skipn n rest))).

(** [timers.set(seconds, { description })] *)
Definition timers_set (seconds : Z) (description : string) : M TimerId :=
  fallible OpTimersSet ;;;
  fun w =>
    let id := next_timer w in
    (Ok id, set_timers (armed w ++ [mkTimer id seconds description])%list (S id) w).

(** [timers.unset(id)] *)
Definition timers_unset (id : TimerId) : M unit :=
  fallible OpTimersUnset ;;;
  modify (fun w =>
    set_timers (List.filter (fun t => negb (Nat.eqb (timer_id t) id)) (armed w))
               (next_timer w) w).

(** [lifecycle.sync()]: asks the platform for a reconciliation pass. *)
Definition lifecycle_sync : M unit :=
  fallible OpLifecycleSync ;;;
  modify (fun w => set_sync_requests (S (sync_requests w)) w).

(** [http.respond(requestId, response)] *)
Definition http_respond (requestId : string) (r : Response) : M unit :=
  modify (fun w => set_outbox (outbox w ++ [(requestId, r)])%list w).

(** [crypto.randomUUID()] *)
Definition randomUUID : M string :=
  fun w => (Ok (uuid_at (rng w) (drawn w)), set_drawn (S (drawn w)) w).

(** [Date.now()] *)
Definition date_now : M Z := gets clock_ms.

(** The platform applies the signal updates of a ready sync result. *)
Definition publish (r : SyncResult) (app : App) : App :=
  match r with
  | Ready u =>
      mkApp (app_config app) (app_url app)
            (mkSignals (Some (su_token u)) (Some (su_expiresAt u))
                       (Some (su_issuer u)) (su_keyring u))
  | Failed _ => app
  end.

(** ** JavaScript truthiness of optional strings *)

(** [a || b] where [a] may be [undefined] or empty. *)
Definition js_or {B : Type} (a : option string) (inj : string -> B) (b : B) : B :=
  match a with
  | Some (String c s) => inj (String c s)
  | _ => b
  end.

(** [!a] *)
Definition js_not (a : option string) : bool :=
  match a with
  | Some (String _ _) => false
  | _ => true
  end.

(** ** [src/crypto.ts]: keys and tokens *)

(** [generateRsaKeyPair]: [(privateKey, publicKey)], both exported as JWK. *)
Definition generateRsaKeyPair : M (obj * obj) :=
  fallible OpGenerateKey ;;;
  fun w => (Ok (keypair_at (rng w) (drawn w)), set_drawn (S (drawn w)) w).

(** [createJWT]: RS256 over the payload, the key id in the protected header. *)
Definition createJWT (kid : string) (privateKey : obj) (payload : obj) : M JWT :=
  fallible OpSign ;;;
  ret (mkJWT [("alg", JStr CONSTANTS.ALGORITHM); ("typ", JStr "JWT");
              ("kid", JStr kid)]
             payload privateKey).

(** The standard claims of the payload literal, in the order written. *)
Definition standardClaims (config : AppConfig) (appUrl : Url)
    (jti : string) (now expiresAt : Z) : obj :=
  [ ("jti", JStr jti);
    ("iss", JStr (origin appUrl));
    ("sub", JStr "flows");
    ("aud", js_or (audience config) JStr (JStr (hostname appUrl)));
    ("exp", JNum expiresAt);
    ("iat", JNum now);
    ("nbf", JNum now) ].

(** The payload literal: [{ ...config.additionalClaims, jti: ..., ... }]. *)
Definition tokenPayload (config : AppConfig) (appUrl : Url)
    (jti : string) (now expiresAt : Z) : obj :=
  obj_spread (standardClaims config appUrl jti now expiresAt)
    (obj_spread (default [] (additionalClaims config)) []).

Definition generateToken (config : AppConfig) (appUrl : Url)
    (kid : string) (privateKey : obj) : M TokenData :=
  let* ms := date_now in
  let now := ms / 1000 in
  let expiresAt := now + expirationMinutes config * 60 in
  let* jti := randomUUID in
  let* jwt := createJWT kid privateKey
                (tokenPayload config appUrl jti now expiresAt) in
  ret (mkTokenData jwt expiresAt (hashConfig config)).

(** TTL of a stored public key, in seconds: grace period + token lifetime. *)
Definition keyTtlSeconds (config : AppConfig) : Z :=
  (CONSTANTS.KEY_GRACE_PERIOD_MINUTES + expirationMinutes config) * 60.

(** Name under which a new public key is stored. *)
Definition keyName (config : AppConfig) (newKeyId : string) : string :=
  CONSTANTS.KEY_STORE.getKeyPrefix (js_or (keyring config) id "default") ++ newKeyId.

Definition generateKeyAndToken (config : AppConfig) (appUrl : Url)
  : M TokenData :=
  try_catch
    (let* newKeyId := randomUUID in
     let* keys := generateRsaKeyPair in
     let privateKey := fst keys in
     let publicKey := snd keys in
     let* tokenData := generateToken config appUrl newKeyId privateKey in
     kv_setMany
       [ mkItem (keyName config newKeyId) (VKey publicKey)
                (Some (keyTtlSeconds config));
         mkItem CONSTANTS.KEY_STORE.CURRENT_TOKEN_KEY (VToken tokenData) None ] ;;;
     ret tokenData)
    (fun error => throw error).

(** ** [src/handlers.ts] *)

Definition handleConfiguration (requestId : string) (app : App) : M unit :=
  let baseUrl := app_url app in
  http_respond requestId
    (mkResponse 200 CONSTANTS.DISCOVERY_RESPONSE_HEADERS
       (JObj [ ("issuer", JStr (origin baseUrl));
               ("jwks_uri", JStr (href baseUrl ++ "/jwks"));
               ("id_token_signing_alg_values_supported",
                JArr [JStr CONSTANTS.ALGORITHM]);
               ("subject_types_supported", JArr [JStr "public"]);
               ("response_types_supported", JArr []);
               ("claims_supported",
                JArr (map JStr ["sub"; "aud"; "exp"; "iat"; "iss"; "jti"; "nbf"])) ])).

(** [{ ...pair.value, alg, use }]; only key records are written under a
    keyring prefix, another value has no JWK members to copy. *)
Definition publicJwk (v : kv_value) : json :=
  let members := match v with VKey jwk => jwk | _ => [] end in
  JObj (obj_spread [("alg", JStr CONSTANTS.ALGORITHM); ("use", JStr "sig")]
          (obj_spread members [])).

(** The [do ... while (startingKey)] loop over the pages. [fuel] bounds the
    number of pages read. *)
Fixpoint jwksPages (fuel : nat) (keyPrefix : string)
    (startingKey : option string) (pubKeys : list json) : M (list json) :=
  match fuel with
  | O => ret pubKeys
  | S fuel' =>
      let* page := kv_list keyPrefix startingKey in
      let pubKeys := (pubKeys ++ map (fun pair => publicJwk (snd pair)) (fst page))%list in
      if js_not (snd page) then ret pubKeys
      else jwksPages fuel' keyPrefix (snd page) pubKeys
  end.

Definition jwksBody (pubKeys : list json) : json :=
  JObj [("keys", JArr pubKeys)].

Definition handleJWKs (requestId : string) (app : App) : M unit :=
  if js_not (sig_keyring (app_signals app)) then
    http_respond requestId
      (mkResponse 200 CONSTANTS.JWKS_RESPONSE_HEADERS (jwksBody []))
  else
    let* n := gets (fun w => size (kv w)) in
    let* pubKeys :=
      jwksPages (S n)
        (CONSTANTS.KEY_STORE.getKeyPrefix (default EmptyString (sig_keyring (app_signals app))))
        None [] in
    http_respond requestId
      (mkResponse 200 CONSTANTS.JWKS_RESPONSE_HEADERS (jwksBody pubKeys)).

(** ** [main.ts] *)

Definition calculateRotationInterval (expirationMinutes : Z) : Z :=
  Z.max 5 (expirationMinutes / 2).

Definition createSignalUpdates (tokenData : TokenData) (appUrl : Url)
    (keyring : option string) : SignalUpdates :=
  mkUpdates (token tokenData) (expiresAt tokenData) (origin appUrl) keyring.

Definition minutes (n : Z) : string := string_of_Z n ++ " minutes".

Definition handleInitialSetup (config : AppConfig) (appUrl : Url)
    (configKeyring : option string) : M (TokenData * option string) :=
  let* tokenData := generateKeyAndToken config appUrl in
  let rotationInterval := calculateRotationInterval (expirationMinutes config) in
  let* timerId :=
    timers_set (rotationInterval * 60)
      ("Initial key rotation scheduled for " ++ minutes rotationInterval) in
  kv_set (mkItem CONSTANTS.KEY_STORE.ROTATION_TIMER_KEY (VTimer timerId) None) ;;;
  ret (tokenData, configKeyring).

Definition handleConfigChange (config : AppConfig) (appUrl : Url)
    (configKeyring : option string) : M (TokenData * option string) :=
  let* tokenData := generateKeyAndToken config appUrl in
  let* existingTimerId := kv_get CONSTANTS.KEY_STORE.ROTATION_TIMER_KEY in
  match existingTimerId with
  | Some (VTimer id) => timers_unset id
  | Some _ => fallible OpTimersUnset
  | None => ret tt
  end ;;;
  let newRotationInterval := calculateRotationInterval (expirationMinutes config) in
  let* newTimerId :=
    timers_set (newRotationInterval * 60)
      ("Key rotation rescheduled after config change ("
         ++ minutes newRotationInterval ++ ")") in
  kv_set (mkItem CONSTANTS.KEY_STORE.ROTATION_TIMER_KEY (VTimer newTimerId) None) ;;;
  ret (tokenData, configKeyring).

Definition EXPIRATION_DIAGNOSTIC : string :=
  "Token expiration time must be at least 10 minutes".

Definition SYNC_ERROR : string := "Sync error, see logs".

(** [currentToken.configHash]; [undefined] on a value that is no token. *)
Definition configHash_of (v : kv_value) : option string :=
  match v with
  | VToken tokenData => Some (configHash tokenData)
  | _ => None
  end.

Definition onSync (app : App) : M SyncResult :=
  try_catch
    (let config := app_config app in
     if (expirationMinutes config <? 10)%Z then ret (Failed EXPIRATION_DIAGNOSTIC)
     else
       let currentConfigHash := hashConfig config in
       let configKeyring := keyring config in
       let currentKeyring := js_or (sig_keyring (app_signals app)) Some configKeyring in
       let* currentToken := kv_get CONSTANTS.KEY_STORE.CURRENT_TOKEN_KEY in
       let* r :=
         match currentToken with
         | None => handleInitialSetup config (app_url app) configKeyring
         | Some (VToken tokenData) =>
             if negb (String.eqb (configHash tokenData) currentConfigHash)
             then handleConfigChange config (app_url app) configKeyring
             else ret (tokenData, currentKeyring)
         | Some _ => handleConfigChange config (app_url app) configKeyring
         end in
       ret (Ready (createSignalUpdates (fst r) (app_url app) (snd r))))
    (fun _ => ret (Failed SYNC_ERROR)).

Definition onTimer (app : App) : M unit :=
  try_catch
    (let config := app_config app in
     generateKeyAndToken config (app_url app) ;;;
     lifecycle_sync ;;;
     let nextInterval := calculateRotationInterval (expirationMinutes config) in
     let* nextTimerId :=
       timers_set (nextInterval * 60)
         ("Key rotation scheduled for " ++ minutes nextInterval) in
     kv_set (mkItem CONSTANTS.KEY_STORE.ROTATION_TIMER_KEY (VTimer nextTimerId) None))
    (fun _ =>
       let* retryTimerId :=
         timers_set 300 "Key rotation retry after failure (5 minutes)" in
       kv_set (mkItem CONSTANTS.KEY_STORE.ROTATION_TIMER_KEY (VTimer retryTimerId) None)).

Definition onRequest (path requestId : string) (app : App) : M unit :=
  try_catch
    (if String.eqb path "/.well-known/openid-configuration"
     then handleConfiguration requestId app
     else if String.eqb path "/jwks" then handleJWKs requestId app
     else http_respond requestId
            (mkResponse 404 [] (JObj [("error", JStr "not found")])))
    (fun _ =>
       http_respond requestId
         (mkResponse 500 [] (JObj [("error", JStr "internal server error")]))).

(** ** Notions used by the statements *)

(** The polynomial the fingerprint loop evaluates, without wrap-around. *)
Fixpoint poly31 (h : Z) (s : string) : Z :=
  match s with
  | EmptyString => h
  | String c s' => poly31 (31 * h + charCodeAt c) s'
  end.

(** The serialisation [hashConfig] hashes. *)
Definition configStr (config : AppConfig) : string :=
  stringify (config_subset config).

(** Shape of the token record [generateToken] returns. *)
Definition issuedToken (config : AppConfig) (appUrl : Url) (kid : string)
    (privateKey : obj) (jti : string) (ms : Z) : TokenData :=
  mkTokenData
    (mkJWT [("alg", JStr CONSTANTS.ALGORITHM); ("typ", JStr "JWT");
            ("kid", JStr kid)]
       (tokenPayload config appUrl jti (ms / 1000)
          (ms / 1000 + expirationMinutes config * 60))
       privateKey)
    (ms / 1000 + expirationMinutes config * 60)
    (hashConfig config).

(** The next [n] fallible calls are not rejected. *)
Definition calm (n : nat) (schedule : list bool) : bool :=
  forallb negb (firstn n schedule).

(** What [generateKeyAndToken] draws and builds from a world. *)
Definition newKeyId (w : World) : string := uuid_at (rng w) (drawn w).

Definition newKeyPair (w : World) : obj * obj :=
  keypair_at (rng w) (S (drawn w)).

Definition newToken (config : AppConfig) (appUrl : Url) (w : World) : TokenData :=
  issuedToken config appUrl (newKeyId w) (fst (newKeyPair w))
    (uuid_at (rng w) (S (S (drawn w)))) (clock_ms w).

Definition newKeyEntry (config : AppConfig) (w : World) : kv_entry :=
  mkEntry (VKey (snd (newKeyPair w))) (now_s w)
          (Some (now_s w + keyTtlSeconds config)).

Definition storeAfterGeneration (config : AppConfig) (appUrl : Url) (w : World)
  : gmap string kv_entry :=
  store_put CONSTANTS.KEY_STORE.CURRENT_TOKEN_KEY
    (mkEntry (VToken (newToken config appUrl w)) (now_s w) None)
    (store_put (keyName config (newKeyId w)) (newKeyEntry config w) (kv w)).

(** A sample deployment for the worked examples. *)
Definition sample_entropy : Entropy :=
  mkEntropy
    (fun n => "uuid-" ++ string_of_Z (Z.of_nat n))
    (fun n => ([("kty", JStr "RSA"); ("d", JStr (string_of_Z (Z.of_nat n)))],
               [("kty", JStr "RSA"); ("n", JStr (string_of_Z (Z.of_nat n)))])).

Definition sample_world (store : gmap string kv_entry) (schedule : list bool)
  : World :=
  mkWorld 1700000000123 store [] 0%nat 0%nat [] sample_entropy 0%nat 10%nat
          schedule.

Definition sample_url : Url :=
  mkUrl "https://oidc.example.com/app" "https://oidc.example.com"
        "oidc.example.com".

Definition no_signals : Signals := mkSignals None None None None.

(** The world after a successful [generateKeyAndToken]. *)
Definition afterGeneration (config : AppConfig) (appUrl : Url) (w : World)
  : World :=
  set_kv (storeAfterGeneration config appUrl w)
    (set_drawn (S (S (S (drawn w))))
       (set_faults (skipn 3 (faults w)) w)).

(** The world once [n] fallible calls have gone through. *)
Definition consume (n : nat) (w : World) : World :=
  set_faults (skipn n (faults w)) w.

(** What [kv.app.get(key)] yields in a world. *)
Definition readLive (key : string) (w : World) : option kv_value :=
  match kv w !! key with
  | Some e => if live (now_s w) e then Some (kv_value_of e) else None
  | None => None
  end.

(** The world after [timers.set] and the [kv.app.set] of its handle. *)
Definition afterArming (seconds : Z) (description : string) (w : World) : World :=
  set_kv (store_put CONSTANTS.KEY_STORE.ROTATION_TIMER_KEY
            (mkEntry (VTimer (next_timer w)) (now_s w) None) (kv w))
    (set_timers (armed w ++ [mkTimer (next_timer w) seconds description])
       (S (next_timer w)) (consume 2 w)).

(** The world after the cancellation step of [handleConfigChange]. *)
Definition afterUnset (existing : option kv_value) (w : World) : World :=
  match existing with
  | Some (VTimer id) =>
      set_timers (List.filter (fun t => negb (Nat.eqb (timer_id t) id)) (armed w))
                 (next_timer w) (consume 1 w)
  | Some _ => consume 1 w
  | None => w
  end.

(** The worlds the two generating branches of [onSync] end in. *)
Definition afterInitialSetup (config : AppConfig) (appUrl : Url) (w : World)
  : World :=
  let rotationInterval := calculateRotationInterval (expirationMinutes config) in
  afterArming (rotationInterval * 60)
    ("Initial key rotation scheduled for " ++ minutes rotationInterval)
    (afterGeneration config appUrl w).

Definition afterConfigChange (config : AppConfig) (appUrl : Url) (w : World)
  : World :=
  let newRotationInterval := calculateRotationInterval (expirationMinutes config) in
  let w1 := afterGeneration config appUrl w in
  afterArming (newRotationInterval * 60)
    ("Key rotation rescheduled after config change ("
       ++ minutes newRotationInterval ++ ")")
    (afterUnset (readLive CONSTANTS.KEY_STORE.ROTATION_TIMER_KEY w1) (consume 1 w1)).

(** A deployment whose first reconciliation pass stored its token and then
    failed to arm the rotation wakeup: nothing has been published yet. *)
Definition stalled_app : App :=
  mkApp (mkConfig 60 None None (Some "v2")) sample_url no_signals.

Definition stalled_world : World :=
  snd (onSync stalled_app (sample_world ∅ [false; false; false; false; true])).

Definition stalled_token : TokenData :=
  newToken (app_config stalled_app) sample_url (sample_world ∅ []).

(** The same deployment with a keyring signal already published. *)
Definition running_app : App :=
  mkApp (app_config stalled_app) sample_url
        (mkSignals (Some (token stalled_token)) (Some (expiresAt stalled_token))
                   (Some (origin sample_url)) (Some "v1")).

(** Where a rotation wakeup can fail before it reschedules. *)
Inductive RotationFault : Type :=
| GenerationFails      (* crypto.subtle.generateKey rejects *)
| SigningFails         (* signing the token rejects *)
| PersistenceFails     (* kv.app.setMany rejects *)
| SignalingFails.      (* lifecycle.sync rejects *)

(** The fault schedule up to and including the failing call. *)
Definition schedule_of (f : RotationFault) : list bool :=
  match f with
  | GenerationFails => [true]
  | SigningFails => [false; true]
  | PersistenceFails => [false; false; true]
  | SignalingFails => [false; false; false; true]
  end.

Definition RETRY_DESCRIPTION : string :=
  "Key rotation retry after failure (5 minutes)".

(** A deployment configured without a keyring, nothing published, whose
    store already holds a key under the default keyring. *)
Definition unkeyed_app : App :=
  mkApp (mkConfig 60 None None None) sample_url no_signals.

Definition seeded_world : World :=
  snd (generateKeyAndToken (app_config unkeyed_app) sample_url
         (sample_world ∅ [])).

Definition EMPTY_JWKS : Response :=
  mkResponse 200 CONSTANTS.JWKS_RESPONSE_HEADERS (JObj [("keys", JArr [])]).

(** The live records under a key prefix, in the order of the store. *)
Definition liveUnder (keyPrefix : string) (w : World) : list (string * kv_entry) :=
  List.filter
    (fun p => String.prefix keyPrefix (fst p) && live (now_s w) (snd p))
    (map_to_list (kv w)).

(** What the JWKS document lists for a stored record. *)
Definition servedJwk (p : string * kv_entry) : json :=
  publicJwk (kv_value_of (snd p)).

(** The names of the standard claims. *)
Definition STANDARD_CLAIM_NAMES : list string :=
  ["jti"; "iss"; "sub"; "aud"; "exp"; "iat"; "nbf"].

(** The operation rejected by each of the first three calls of
    [generateKeyAndToken]. *)
Definition generationOps : list Op := [OpGenerateKey; OpSign; OpKvSetMany].

(** A schedule whose first rejection is at call [n]. *)
Definition rejectAt (n : nat) (rest : list bool) : list bool :=
  (repeat false n ++ true :: rest)%list.

(** The deployment without keyring after its first pass, and the same
    deployment once the operator has set the keyring to [v2]. *)
Definition settled_world : World :=
  snd (onSync unkeyed_app (sample_world ∅ [])).

Definition rekeyed_app : App :=
  mkApp (mkConfig 60 None None (Some "v2")) sample_url
        (mkSignals None None None (Some "default")).

(** No [":"] in a keyring name. *)
Fixpoint no_colon (s : string) : bool :=
  match s with
  | EmptyString => true
  | String c s' => negb (Ascii.eqb c ":") && no_colon s'
  end.

(** A store holding one key generated for the keyring [prod:2024]. *)
Definition nested_config : AppConfig :=
  mkConfig 60 None None (Some "prod:2024").

Definition nested_world : World :=
  snd (generateKeyAndToken nested_config sample_url (sample_world ∅ [])).

Definition SERVER_ERROR : Response :=
  mkResponse 500 [] (JObj [("error", JStr "internal server error")]).

(** * Properties *)

(** ** The configuration fingerprint *)

Example stringify_config :
  configStr (mkConfig 60 (Some "Aa") None (Some "default"))
  = "{" ++ quote "expirationMinutes" ++ ":60," ++ quote "audience" ++ ":"
        ++ quote "Aa" ++ "," ++ quote "keyring" ++ ":" ++ quote "default" ++ "}".
Proof. reflexivity. Qed.

Example stringify_nested :
  stringify (JObj [("a", JArr [JNum (-1); JNull; JBool true]); ("b", JObj [])])
  = "{" ++ quote "a" ++ ":[-1,null,true]," ++ quote "b" ++ ":{}}".
Proof. reflexivity. Qed.

Example quote_escapes :
  quote (String dquote (String (ascii_of_N 10) (String (ascii_of_N 1) "z")))
  = String dquote (escape (String dquote (escape ("n" ++
      escape ("u0001z" ++ String dquote EmptyString))))).
Proof. reflexivity. Qed.

Example hashConfig_default : hashConfig (mkConfig 120 None None None) = "-1425552177".
Proof. vm_compute. reflexivity. Qed.

Example to_int32_wraps : to_int32 (2 ^ 31) = - 2 ^ 31 /\ to_int32 (- 2 ^ 31 - 1) = 2 ^ 31 - 1.
Proof. split; reflexivity. Qed.

Section Fingerprint.

Lemma to_int32_mod z : to_int32 z mod 2 ^ 32 = z mod 2 ^ 32.
Proof.
  unfold to_int32. rewrite Zminus_mod_idemp_l. f_equal. lia.
Qed.

Lemma to_int32_congr a b :
  a mod 2 ^ 32 = b mod 2 ^ 32 -> to_int32 a = to_int32 b.
Proof.
  intros H. unfold to_int32.
  rewrite (Zplus_mod a), (Zplus_mod b), H. reflexivity.
Qed.

Lemma to_int32_range z : - 2 ^ 31 <= to_int32 z < 2 ^ 31.
Proof.
  unfold to_int32.
  pose proof (Z.mod_pos_bound (z + 2 ^ 31) (2 ^ 32) ltac:(lia)). lia.
Qed.

Lemma hash_step_poly h c : hash_step h c = to_int32 (31 * h + charCodeAt c).
Proof.
  unfold hash_step. apply to_int32_congr.
  rewrite Z.shiftl_mul_pow2 by lia.
  replace (to_int32 (h * 2 ^ 5) - h + charCodeAt c)
    with (to_int32 (h * 2 ^ 5) + (charCodeAt c - h)) by lia.
  rewrite Zplus_mod, to_int32_mod, <- Zplus_mod. f_equal. lia.
Qed.

Lemma hash_loop_poly s : forall h h',
  h mod 2 ^ 32 = h' mod 2 ^ 32 ->
  hash_loop h s mod 2 ^ 32 = poly31 h' s mod 2 ^ 32.
Proof.
  induction s as [|c s IH]; intros h h' E; simpl; [exact E|].
  apply IH. rewrite hash_step_poly, to_int32_mod.
  rewrite (Zplus_mod (31 * h)), (Zplus_mod (31 * h')).
  rewrite (Zmult_mod 31 h), (Zmult_mod 31 h'), E. reflexivity.
Qed.

Lemma poly31_app s t : forall h, poly31 h (s ++ t) = poly31 (poly31 h s) t.
Proof. induction s as [|c s IH]; intros h; simpl; [reflexivity | apply IH]. Qed.

Lemma poly31_diff s : forall x y,
  poly31 x s - poly31 y s = 31 ^ Z.of_nat (String.length s) * (x - y).
Proof.
  induction s as [|c s IH]; intros x y.
  - simpl. lia.
  - cbn [poly31 String.length]. rewrite IH, Nat2Z.inj_succ, Z.pow_succ_r by lia. lia.
Qed.

Lemma string_of_Z_inj x y : string_of_Z x = string_of_Z y -> x = y.
Proof.
  unfold string_of_Z. intros H. apply DecimalZ.to_int_inj.
  apply (f_equal NilZero.int_of_string) in H.
  assert (ok : forall z, Z.to_int z <> Decimal.Pos Decimal.Nil
                      /\ Z.to_int z <> Decimal.Neg Decimal.Nil).
  { intros [|p|p]; simpl; split; try discriminate;
      intros [= E]; exact (DecimalPos.Unsigned.to_uint_nonnil p E). }
  rewrite !NilZero.isi in H by apply ok. congruence.
Qed.

Lemma charCodeAt_range c : 0 <= charCodeAt c < 256.
Proof.
  unfold charCodeAt. pose proof (N_ascii_bounded c). lia.
Qed.

Lemma charCodeAt_inj a b : charCodeAt a = charCodeAt b -> a = b.
Proof.
  unfold charCodeAt. intros H. apply N2Z.inj in H.
  rewrite <- (ascii_N_embedding a), <- (ascii_N_embedding b), H. reflexivity.
Qed.

Lemma coprime_wrap n : Z.gcd (2 ^ 32) (31 ^ Z.of_nat n) = 1.
Proof.
  apply Z.coprime_pow_l; [lia|].
  apply Z.coprime_pow_r; [lia|]. reflexivity.
Qed.

(** Equal fingerprints are equal polynomials modulo [2^32]. *)
Lemma hashConfig_eq_poly c1 c2 :
  hashConfig c1 = hashConfig c2 <->
  poly31 0 (configStr c1) mod 2 ^ 32 = poly31 0 (configStr c2) mod 2 ^ 32.
Proof.
  unfold hashConfig. fold (configStr c1) (configStr c2). split.
  - intros H. apply string_of_Z_inj in H.
    rewrite <- !(hash_loop_poly _ 0 0 eq_refl), H. reflexivity.
  - intros H. f_equal.
    pose proof (to_int32_range (hash_loop 0 (configStr c1))) as R1.
    pose proof (to_int32_range (hash_loop 0 (configStr c2))) as R2.
    rewrite <- !(hash_loop_poly _ 0 0 eq_refl) in H.
    assert (B : forall s, - 2 ^ 31 <= hash_loop 0 s < 2 ^ 31).
    { intros s. assert (G : forall s h, - 2 ^ 31 <= h < 2 ^ 31 ->
                                       - 2 ^ 31 <= hash_loop h s < 2 ^ 31).
      { clear. induction s as [|c s IH]; intros h Hh; simpl; [exact Hh|].
        apply IH. unfold hash_step. apply to_int32_range. }
      apply G. lia. }
    pose proof (B (configStr c1)). pose proof (B (configStr c2)).
    apply to_int32_congr in H. unfold to_int32 in H.
    rewrite !Z.mod_small in H by lia. lia.
Qed.

Lemma poly31_single_difference pre a b suf :
  poly31 0 (pre ++ String a suf) mod 2 ^ 32
  = poly31 0 (pre ++ String b suf) mod 2 ^ 32 ->
  a = b.
Proof.
  rewrite !poly31_app. cbn [poly31]. intros H.
  apply charCodeAt_inj.
  pose proof (charCodeAt_range a). pose proof (charCodeAt_range b).
  set (n := Z.of_nat (String.length suf)).
  assert (D : (2 ^ 32 | 31 ^ n * (charCodeAt a - charCodeAt b))).
  { apply Z.mod_divide; [lia|].
    replace (31 ^ n * (charCodeAt a - charCodeAt b))
      with (poly31 (31 * poly31 0 pre + charCodeAt a) suf
            - poly31 (31 * poly31 0 pre + charCodeAt b) suf)
      by (rewrite poly31_diff; subst n; lia).
    rewrite Zminus_mod, H, Z.sub_diag. reflexivity. }
  apply Z.gauss in D; [|apply coprime_wrap].
  destruct D as [q Hq]. lia.
Qed.

End Fingerprint.

(** C1: the fingerprint does not tell every two configurations apart. The
    configurations below differ in [audience] only, and [hashConfig] returns
    the same string for both: the loop is a 32-bit hash, not the digest the
    README describes. *)
Theorem hashConfig_collision :
  audience (mkConfig 60 (Some "Aa") None (Some "default"))
    <> audience (mkConfig 60 (Some "BB") None (Some "default"))
  /\ hashConfig (mkConfig 60 (Some "Aa") None (Some "default")) = "-1512832482"
  /\ hashConfig (mkConfig 60 (Some "BB") None (Some "default")) = "-1512832482".
Proof. split; [discriminate | split; vm_compute; reflexivity]. Qed.

(** X1: what the loop does guarantee: the fingerprint is the 32-bit wrap of a
    base-31 polynomial of the serialised configuration, so two
    configurations whose serialisations differ in exactly one code unit
    never share a fingerprint. *)
Theorem hashConfig_single_difference (c1 c2 : AppConfig)
    (pre suf : string) (a b : ascii) :
  configStr c1 = pre ++ String a suf ->
  configStr c2 = pre ++ String b suf ->
  a <> b ->
  hashConfig c1 <> hashConfig c2.
Proof.
  intros E1 E2 Hab H. apply Hab.
  apply hashConfig_eq_poly in H. rewrite E1, E2 in H.
  exact (poly31_single_difference pre a b suf H).
Qed.

Lemma hashConfig_single_difference_witness :
  hashConfig (mkConfig 60 None None (Some "default"))
  <> hashConfig (mkConfig 61 None None (Some "default")).
Proof.
  apply (hashConfig_single_difference
           (mkConfig 60 None None (Some "default"))
           (mkConfig 61 None None (Some "default"))
           ("{" ++ quote "expirationMinutes" ++ ":6")
           ("," ++ quote "keyring" ++ ":" ++ quote "default" ++ "}")
           "0" "1");
    [reflexivity | reflexivity | discriminate].
Defined.

(** ** The rotation interval *)

(** C8: the rotation interval is [max(5, floor(x / 2))]: never below 5,
    equal to 5 up to 11 minutes, the floored half from 10 minutes on, with
    the four values the specification lists. *)
Theorem calculateRotationInterval_spec (x : Z) :
  calculateRotationInterval x = Z.max 5 (x / 2)
  /\ 5 <= calculateRotationInterval x
  /\ (x < 12 -> calculateRotationInterval x = 5)
  /\ (10 <= x ->
      2 * calculateRotationInterval x <= x < 2 * calculateRotationInterval x + 2)
  /\ calculateRotationInterval 60 = 30
  /\ calculateRotationInterval 10 = 5
  /\ calculateRotationInterval 120 = 60
  /\ calculateRotationInterval 11 = 5.
Proof.
  unfold calculateRotationInterval.
  pose proof (Z.div_mod x 2 ltac:(lia)) as D.
  pose proof (Z.mod_pos_bound x 2 ltac:(lia)) as B.
  repeat split; try reflexivity; try lia.
Qed.

Lemma calculateRotationInterval_spec_witness :
  calculateRotationInterval 11 = 5
  /\ 2 * calculateRotationInterval 61 <= 61 < 2 * calculateRotationInterval 61 + 2.
Proof.
  split.
  - exact (proj1 (proj2 (proj2 (calculateRotationInterval_spec 11))) eq_refl).
  - apply (proj1 (proj2 (proj2 (proj2 (calculateRotationInterval_spec 61))))).
    lia.
Defined.

(** ** Objects *)

Lemma obj_get_set_eq k v o : obj_get k (obj_set k v o) = Some v.
Proof.
  induction o as [|[k' v'] o IH]; simpl.
  - rewrite String.eqb_refl. reflexivity.
  - destruct (String.eqb k' k) eqn:E; simpl; rewrite E; [reflexivity | exact IH].
Qed.

Lemma obj_get_set_ne k k' v o : k <> k' -> obj_get k (obj_set k' v o) = obj_get k o.
Proof.
  intros Hne. induction o as [|[k0 v0] o IH]; simpl.
  - destruct (String.eqb_spec k' k); [congruence | reflexivity].
  - destruct (String.eqb_spec k0 k'); simpl.
    + destruct (String.eqb_spec k0 k); [congruence | reflexivity].
    + destruct (String.eqb_spec k0 k); [reflexivity | exact IH].
Qed.

(** Every standard claim is in the payload with its own value, whatever the
    additional claims hold. *)
Lemma tokenPayload_standard config appUrl jti now exp k v :
  In (k, v) (standardClaims config appUrl jti now exp) ->
  obj_get k (tokenPayload config appUrl jti now exp) = Some v.
Proof.
  unfold tokenPayload, standardClaims.
  generalize (obj_spread (default [] (additionalClaims config)) []).
  intros base H. unfold obj_spread. cbn [fold_left fst snd].
  repeat (destruct H as [H | H];
          [injection H as <- <-;
           repeat (rewrite obj_get_set_ne by discriminate);
           apply obj_get_set_eq|]).
  destruct H.
Qed.

(** ** Symbolic execution of the handlers *)

Ltac run :=
  cbv [bind ret throw try_catch gets modify fallible
       set_kv set_timers set_sync_requests set_outbox set_drawn set_faults
       clock_ms kv armed next_timer sync_requests outbox rng drawn page_size
       faults now_s
       kv_get kv_set kv_setMany kv_write timers_set timers_unset
       lifecycle_sync http_respond randomUUID date_now
       item_key item_value item_ttl fold_left fmap option_fmap option_map
       generateRsaKeyPair createJWT generateToken generateKeyAndToken
       handleInitialSetup handleConfigChange onSync onTimer
       handleJWKs handleConfiguration onRequest].

Lemma generateToken_ok config appUrl kid privateKey w :
  hd false (faults w) = false ->
  generateToken config appUrl kid privateKey w
  = (Ok (issuedToken config appUrl kid privateKey
           (uuid_at (rng w) (drawn w)) (clock_ms w)),
     set_faults (tl (faults w)) (set_drawn (S (drawn w)) w)).
Proof.
  destruct w as [ms m ts nt sr ob e d ps fs]. cbn [faults hd].
  intros H. run.
  destruct fs as [|[] fs]; try discriminate; reflexivity.
Qed.

(** ** Token issuance *)

Lemma calm_cons n b l : calm (S n) (b :: l) = negb b && calm n l.
Proof. reflexivity. Qed.

Lemma calm_hd n l : calm (S n) l = true -> hd false l = false.
Proof.
  destruct l as [|[] l]; try reflexivity. rewrite calm_cons. discriminate.
Qed.

(** A token is issued unless signing is rejected, and its payload holds
    every standard claim. *)
Lemma generateToken_claims (config : AppConfig) (appUrl : Url)
    (kid : string) (privateKey : obj) (w : World) :
  calm 1 (faults w) = true ->
  exists tokenData w',
    generateToken config appUrl kid privateKey w = (Ok tokenData, w')
    /\ forall k v,
         In (k, v) (standardClaims config appUrl (uuid_at (rng w) (drawn w))
                      (now_s w) (now_s w + expirationMinutes config * 60)) ->
         obj_get k (jwt_payload (token tokenData)) = Some v.
Proof.
  intros H. apply calm_hd in H.
  eexists _, _. split; [apply generateToken_ok, H|].
  intros k v Hin. cbn [issuedToken token jwt_payload].
  apply tokenPayload_standard, Hin.
Qed.



(** C9: the [aud] claim of an issued token is the configured audience when
    one is set (a non-empty string), and the host name of the app URL when
    the audience is absent or empty. *)
Theorem aud_claim (config : AppConfig) (appUrl : Url)
    (kid : string) (privateKey : obj) (w : World) :
  calm 1 (faults w) = true ->
  exists tokenData w',
    generateToken config appUrl kid privateKey w = (Ok tokenData, w')
    /\ (forall a, audience config = Some a -> a <> EmptyString ->
          obj_get "aud" (jwt_payload (token tokenData)) = Some (JStr a))
    /\ (audience config = None \/ audience config = Some EmptyString ->
          obj_get "aud" (jwt_payload (token tokenData))
          = Some (JStr (hostname appUrl))).
Proof.
  intros H.
  destruct (generateToken_claims config appUrl kid privateKey w H)
    as (tokenData & w' & E & Hstd).
  exists tokenData, w'. split; [exact E|].
  assert (A : obj_get "aud" (jwt_payload (token tokenData))
              = Some (js_or (audience config) JStr (JStr (hostname appUrl)))).
  { apply Hstd. unfold standardClaims. cbn [In]. tauto. }
  split.
  - intros a Ha Hne. rewrite A, Ha. destruct a; [congruence | reflexivity].
  - intros [Ha | Ha]; rewrite A, Ha; reflexivity.
Qed.

Lemma aud_claim_witness :
  (exists tokenData w',
     generateToken (mkConfig 60 (Some "api.example.com") None None)
       sample_url "kid-1" [] (sample_world ∅ []) = (Ok tokenData, w')
     /\ obj_get "aud" (jwt_payload (token tokenData))
        = Some (JStr "api.example.com"))
  /\ (exists tokenData w',
     generateToken (mkConfig 60 None None None)
       sample_url "kid-1" [] (sample_world ∅ []) = (Ok tokenData, w')
     /\ obj_get "aud" (jwt_payload (token tokenData))
        = Some (JStr "oidc.example.com")).
Proof.
  split.
  - destruct (aud_claim (mkConfig 60 (Some "api.example.com") None None)
                sample_url "kid-1" [] (sample_world ∅ []) eq_refl)
      as (tokenData & w' & E & H & _).
    exists tokenData, w'. split; [exact E|].
    apply H; [reflexivity | discriminate].
  - destruct (aud_claim (mkConfig 60 None None None)
                sample_url "kid-1" [] (sample_world ∅ []) eq_refl)
      as (tokenData & w' & E & _ & H).
    exists tokenData, w'. split; [exact E|].
    apply H. left. reflexivity.
Defined.

(** ** Key and token generation *)

Lemma keyName_not_token config id : keyName config id <> CONSTANTS.KEY_STORE.CURRENT_TOKEN_KEY.
Proof. unfold keyName, CONSTANTS.KEY_STORE.getKeyPrefix. discriminate. Qed.

Lemma keyName_not_timer config id : keyName config id <> CONSTANTS.KEY_STORE.ROTATION_TIMER_KEY.
Proof. unfold keyName, CONSTANTS.KEY_STORE.getKeyPrefix. discriminate. Qed.

Lemma generateKeyAndToken_ok config appUrl w :
  calm 3 (faults w) = true ->
  generateKeyAndToken config appUrl w
  = (Ok (newToken config appUrl w), afterGeneration config appUrl w).
Proof.
  destruct w as [ms m ts nt sr ob e d ps fs]. cbn [faults].
  intros H. run.
  destruct fs as [|[] [|[] [|[] fs]]]; try discriminate; reflexivity.
Qed.

(** C6: the public key stored by [generateKeyAndToken] lives for the grace
    period of 30 minutes plus the configured token lifetime:
    [expiresAt - createdAt = 1800 + expirationMinutes * 60]. *)
Theorem key_ttl_invariant (config : AppConfig) (appUrl : Url) (w : World) :
  calm 3 (faults w) = true ->
  exists tokenData w' record expiry,
    generateKeyAndToken config appUrl w = (Ok tokenData, w')
    /\ kv w' !! keyName config (newKeyId w) = Some record
    /\ kv_value_of record = VKey (snd (newKeyPair w))
    /\ kv_expiresAt record = Some expiry
    /\ expiry - kv_createdAt record
       = CONSTANTS.KEY_GRACE_PERIOD_MINUTES * 60 + expirationMinutes config * 60
    /\ CONSTANTS.KEY_GRACE_PERIOD_MINUTES * 60 = 1800.
Proof.
  intros H. eexists _, _, (newKeyEntry config w), _.
  split; [apply generateKeyAndToken_ok, H|].
  split.
  - destruct w as [ms m ts nt sr ob e d ps fs].
    cbn [afterGeneration set_kv kv]. unfold storeAfterGeneration, store_put.
    rewrite lookup_insert_ne by (apply not_eq_sym, keyName_not_token).
    apply lookup_insert_eq.
  - cbn [newKeyEntry kv_value_of kv_expiresAt kv_createdAt].
    repeat split. unfold keyTtlSeconds. lia.
Qed.

Lemma key_ttl_invariant_witness :
  exists tokenData w' record expiry,
    generateKeyAndToken (mkConfig 120 None None None) sample_url
      (sample_world ∅ []) = (Ok tokenData, w')
    /\ kv w' !! "key:default:uuid-0" = Some record
    /\ kv_expiresAt record = Some expiry
    /\ expiry - kv_createdAt record = 9000.
Proof.
  destruct (key_ttl_invariant (mkConfig 120 None None None) sample_url
              (sample_world ∅ []) eq_refl)
    as (tokenData & w' & record & expiry & E & L & _ & X & T & _).
  exists tokenData, w', record, expiry. repeat split; assumption.
Defined.

(** ** Steps of the platform calls *)

Lemma calm_le n : forall m l, (n <= m)%nat -> calm m l = true -> calm n l = true.
Proof.
  induction n as [|n IH]; intros m l Hle H; [reflexivity|].
  destruct m as [|m]; [lia|].
  destruct l as [|b l]; [reflexivity|].
  rewrite calm_cons in *. apply andb_prop in H as [Hb Hl].
  rewrite Hb. simpl. apply (IH m); [lia | exact Hl].
Qed.

Lemma calm_skipn k : forall n l, calm (k + n) l = true -> calm n (skipn k l) = true.
Proof.
  induction k as [|k IH]; intros n l H; [exact H|].
  destruct l as [|b l]; [destruct n; reflexivity|].
  change (S k + n)%nat with (S (k + n)) in H. rewrite calm_cons in H.
  apply andb_prop in H as [_ Hl]. simpl. apply IH, Hl.
Qed.

Lemma bind_ok {A B} (m : M A) (k : A -> M B) w a w1 :
  m w = (Ok a, w1) -> bind m k w = k a w1.
Proof. intros E. unfold bind. rewrite E. reflexivity. Qed.

Lemma fallible_ok op w :
  calm 1 (faults w) = true -> fallible op w = (Ok tt, consume 1 w).
Proof.
  destruct w as [ms m ts nt sr ob e d ps fs]. cbn [faults]. intros H.
  destruct fs as [|[] fs]; try discriminate; reflexivity.
Qed.

Lemma kv_get_ok key w :
  calm 1 (faults w) = true ->
  kv_get key w = (Ok (readLive key w), consume 1 w).
Proof.
  intros H. unfold kv_get. rewrite (bind_ok _ _ _ _ _ (fallible_ok _ _ H)).
  reflexivity.
Qed.

Lemma timers_unset_ok id w :
  calm 1 (faults w) = true ->
  timers_unset id w = (Ok tt, afterUnset (Some (VTimer id)) w).
Proof.
  intros H. unfold timers_unset.
  rewrite (bind_ok _ _ _ _ _ (fallible_ok _ _ H)). reflexivity.
Qed.

Lemma bind_thrown {A B} (m : M A) (k : A -> M B) w e w1 :
  m w = (Thrown e, w1) -> bind m k w = (Thrown e, w1).
Proof. intros E. unfold bind. rewrite E. reflexivity. Qed.

Lemma fallible_rejected op w rest :
  faults w = true :: rest -> fallible op w = (Thrown op, set_faults rest w).
Proof. intros H. unfold fallible. rewrite H. reflexivity. Qed.

(** ** The JWKS handler *)

Lemma handleJWKs_no_signal (requestId : string) (app : App) (w : World) :
  sig_keyring (app_signals app) = None ->
  handleJWKs requestId app w
  = (Ok tt,
     set_outbox
       (outbox w ++ [(requestId,
                      mkResponse 200 CONSTANTS.JWKS_RESPONSE_HEADERS
                        (JObj [("keys", JArr [])]))]) w).
Proof. intros H. unfold handleJWKs. rewrite H. reflexivity. Qed.

(** C3: with no keyring signal, the JWKS handler answers 200 with an empty
    key set, whatever the store holds; it reads no key and cannot fail. *)
Theorem jwks_without_signal (requestId : string) (app : App) (w : World) :
  sig_keyring (app_signals app) = None ->
  handleJWKs requestId app w
  = (Ok tt,
     set_outbox
       (outbox w ++ [(requestId,
                      mkResponse 200 CONSTANTS.JWKS_RESPONSE_HEADERS
                        (JObj [("keys", JArr [])]))]) w)
  /\ onRequest "/jwks" requestId app w = handleJWKs requestId app w.
Proof.
  intros H. split; [apply handleJWKs_no_signal, H|].
  unfold onRequest, try_catch. cbn [String.eqb Ascii.eqb Bool.eqb].
  rewrite (handleJWKs_no_signal _ _ _ H). reflexivity.
Qed.

Lemma jwks_without_signal_witness :
  handleJWKs "req-1" unkeyed_app seeded_world
  = (Ok tt, set_outbox [("req-1", EMPTY_JWKS)] seeded_world)
  /\ is_Some (kv seeded_world !! "key:default:uuid-0").
Proof.
  split.
  - exact (proj1 (jwks_without_signal "req-1" unkeyed_app seeded_world eq_refl)).
  - vm_compute. eexists. reflexivity.
Defined.

(** ** The pages of the JWKS handler *)

Lemma drop_until_here key (pre : list (string * kv_entry)) e rest :
  key ∉ pre.*1 ->
  drop_until key (pre ++ (key, e) :: rest) = (key, e) :: rest.
Proof.
  induction pre as [|[k0 e0] pre IH]; intros Hnot; simpl.
  - rewrite String.eqb_refl. reflexivity.
  - destruct (String.eqb_spec k0 key) as [->|Hne].
    + exfalso. apply Hnot. simpl. left.
    + apply IH. intros Hin. apply Hnot. simpl. right. exact Hin.
Qed.

Lemma NoDup_fst_filter (f : string * kv_entry -> bool) l :
  NoDup l.*1 -> NoDup (List.filter f l).*1.
Proof.
  induction l as [|p l IH]; simpl; intros H; [exact H|].
  apply NoDup_cons in H as [Hp Hl].
  destruct (f p); simpl; [|apply IH, Hl].
  apply NoDup_cons. split; [|apply IH, Hl].
  intros Hin. apply Hp.
  apply list_elem_of_fmap in Hin as (q & -> & Hq).
  apply list_elem_of_fmap. exists q. split; [reflexivity|].
  apply list_elem_of_In in Hq. apply filter_In in Hq as [Hq _].
  apply list_elem_of_In, Hq.
Qed.

Lemma NoDup_liveUnder keyPrefix w : NoDup (liveUnder keyPrefix w).*1.
Proof. apply NoDup_fst_filter, NoDup_fst_map_to_list. Qed.

Lemma liveUnder_prefix keyPrefix w p :
  In p (liveUnder keyPrefix w) -> String.prefix keyPrefix (fst p) = true.
Proof.
  unfold liveUnder. intros H. apply filter_In in H as [_ H].
  apply andb_prop in H. apply H.
Qed.

Lemma kv_list_quiet keyPrefix startingKey w :
  faults w = [] ->
  kv_list keyPrefix startingKey w
  = (Ok (let rest := match startingKey with
                     | None => liveUnder keyPrefix w
                     | Some k => drop_until k (liveUnder keyPrefix w)
                     end in
         let n := Nat.max 1 (page_size w) in
         (map (fun p => (fst p, kv_value_of (snd p))) (firstn n rest),
          fst <$> hd_error (skipn n rest))), w).
Proof.
  intros H. unfold kv_list, bind, fallible. rewrite H. reflexivity.
Qed.

Lemma jwksPages_all keyPrefix c s w :
  keyPrefix = String c s ->
  faults w = [] ->
  forall fuel pre rest startingKey pubKeys,
    liveUnder keyPrefix w = (pre ++ rest)%list ->
    match startingKey with
    | None => pre = []
    | Some k => exists e rest', rest = (k, e) :: rest'
    end ->
    (length rest < fuel)%nat ->
    jwksPages fuel keyPrefix startingKey pubKeys w
    = (Ok (pubKeys ++ map servedJwk rest)%list, w).
Proof.
  intros Hp Hq. induction fuel as [|fuel IH];
    intros pre rest startingKey pubKeys Hall Hstart Hlen; [lia|].
  cbn [jwksPages].
  rewrite (bind_ok _ _ _ _ _ (kv_list_quiet keyPrefix startingKey w Hq)).
  cbv zeta.
  assert (Hrest : match startingKey with
                  | None => liveUnder keyPrefix w
                  | Some k => drop_until k (liveUnder keyPrefix w)
                  end = rest).
  { destruct startingKey as [k|].
    - destruct Hstart as (e & rest' & ->). rewrite Hall.
      apply drop_until_here.
      pose proof (NoDup_liveUnder keyPrefix w) as ND. rewrite Hall in ND.
      rewrite fmap_app in ND. apply NoDup_app in ND as (_ & ND & _).
      intros Hin. apply (ND k Hin). simpl. left.
    - subst pre. exact Hall. }
  rewrite Hrest. cbn [fst snd].
  set (n := Nat.max 1 (page_size w)).
  rewrite map_map. fold servedJwk.
  change (map (fun x => publicJwk (kv_value_of (snd x)))) with (map servedJwk).
  destruct (skipn n rest) as [|[k e] rest'] eqn:Hskip.
  - cbn [hd_error fmap option_fmap option_map js_not].
    apply skipn_all_iff in Hskip. rewrite firstn_all2 by exact Hskip.
    reflexivity.
  - cbn [hd_error fmap option_fmap option_map fst].
    assert (Hk : k <> EmptyString).
    { assert (Hin : In (k, e) (liveUnder keyPrefix w)).
      { rewrite Hall. apply in_or_app. right.
        rewrite <- (firstn_skipn n rest), Hskip. apply in_or_app. right. left.
        reflexivity. }
      apply liveUnder_prefix in Hin. cbn [fst] in Hin.
      intros ->. rewrite Hp in Hin. discriminate Hin. }
    destruct k as [|c0 k]; [congruence|]. cbn [js_not].
    rewrite (IH (pre ++ firstn n rest)%list ((String c0 k, e) :: rest')).
    + rewrite <- (firstn_skipn n rest) at 2. rewrite Hskip, map_app, app_assoc.
      reflexivity.
    + rewrite <- app_assoc, <- Hskip, firstn_skipn. exact Hall.
    + eexists _, _. reflexivity.
    + rewrite <- Hskip, length_skipn.
      assert (length rest <> 0)%nat by (destruct rest; [rewrite skipn_nil in Hskip|]; [discriminate | discriminate]).
      subst n. lia.
Qed.

(** With a keyring signal the handler serves every live key stored under
    that keyring: the loop reads all the pages. *)
Lemma handleJWKs_serves_keyring (requestId : string) (app : App) (w : World)
    (c : ascii) (s : string) :
  sig_keyring (app_signals app) = Some (String c s) ->
  faults w = [] ->
  handleJWKs requestId app w
  = (Ok tt,
     set_outbox
       (outbox w ++
        [(requestId,
          mkResponse 200 CONSTANTS.JWKS_RESPONSE_HEADERS
            (jwksBody (map servedJwk
                         (liveUnder (CONSTANTS.KEY_STORE.getKeyPrefix (String c s)) w))))])
       w).
Proof.
  intros Hs Hq. unfold handleJWKs. rewrite Hs. cbn [js_not default].
  rewrite (bind_ok (gets (fun w => size (kv w))) _ w (size (kv w)) w eq_refl).
  assert (L : (length (liveUnder (CONSTANTS.KEY_STORE.getKeyPrefix (String c s)) w)
               < S (size (kv w)))%nat).
  { unfold liveUnder.
    pose proof (filter_length_le
                  (fun p : string * kv_entry =>
                     String.prefix (CONSTANTS.KEY_STORE.getKeyPrefix (String c s)) (fst p)
                     && live (now_s w) (snd p))
                  (map_to_list (kv w))) as L.
    rewrite length_map_to_list in L. lia. }
  rewrite (bind_ok _ _ _ _ _
             (jwksPages_all (CONSTANTS.KEY_STORE.getKeyPrefix (String c s)) _ _ w eq_refl Hq
                (S (size (kv w))) []
                (liveUnder (CONSTANTS.KEY_STORE.getKeyPrefix (String c s)) w) None []
                eq_refl eq_refl L)).
  reflexivity.
Qed.

Example jwks_of_default_keyring :
  handleJWKs "req-1"
    (mkApp (app_config unkeyed_app) sample_url
           (mkSignals None None None (Some "default")))
    seeded_world
  = (Ok tt,
     set_outbox
       [("req-1",
         mkResponse 200 CONSTANTS.JWKS_RESPONSE_HEADERS
           (JObj [("keys",
                   JArr [JObj [("kty", JStr "RSA"); ("n", JStr "1");
                               ("alg", JStr "RS256"); ("use", JStr "sig")]])]))]
       seeded_world).
Proof. vm_compute. reflexivity. Qed.

(** ** The branches of the reconciliation pass *)

Lemma arm_then {B} seconds description (k : M B) w :
  calm 2 (faults w) = true ->
  bind (timers_set seconds description)
       (fun id =>
          bind (kv_set (mkItem CONSTANTS.KEY_STORE.ROTATION_TIMER_KEY (VTimer id) None))
               (fun _ => k)) w
  = k (afterArming seconds description w).
Proof.
  destruct w as [ms m ts nt sr ob e d ps fs]. cbn [faults]. intros H. run.
  destruct fs as [|[] [|[] fs]]; try discriminate; reflexivity.
Qed.

Lemma faults_afterGeneration config appUrl w :
  faults (afterGeneration config appUrl w) = skipn 3 (faults w).
Proof. reflexivity. Qed.

Lemma faults_consume n w : faults (consume n w) = skipn n (faults w).
Proof. reflexivity. Qed.

Lemma handleInitialSetup_ok config appUrl configKeyring w :
  calm 5 (faults w) = true ->
  handleInitialSetup config appUrl configKeyring w
  = (Ok (newToken config appUrl w, configKeyring),
     afterInitialSetup config appUrl w).
Proof.
  intros H. unfold handleInitialSetup.
  rewrite (bind_ok _ _ _ _ _
             (generateKeyAndToken_ok config appUrl w (calm_le 3 5 _ ltac:(lia) H))).
  rewrite arm_then; [reflexivity|].
  rewrite faults_afterGeneration. apply (calm_skipn 3 2), H.
Qed.

Lemma handleConfigChange_ok config appUrl configKeyring w :
  calm 7 (faults w) = true ->
  handleConfigChange config appUrl configKeyring w
  = (Ok (newToken config appUrl w, configKeyring),
     afterConfigChange config appUrl w).
Proof.
  intros H. unfold handleConfigChange.
  rewrite (bind_ok _ _ _ _ _
             (generateKeyAndToken_ok config appUrl w (calm_le 3 7 _ ltac:(lia) H))).
  assert (H4 : calm 4 (faults (afterGeneration config appUrl w)) = true)
    by (rewrite faults_afterGeneration; apply (calm_skipn 3 4), H).
  rewrite (bind_ok _ _ _ _ _
             (kv_get_ok _ _ (calm_le 1 4 _ ltac:(lia) H4))).
  assert (H3 : calm 3 (faults (consume 1 (afterGeneration config appUrl w))) = true)
    by (rewrite faults_consume; apply (calm_skipn 1 3), H4).
  unfold afterConfigChange. cbv zeta.
  set (w1 := afterGeneration config appUrl w) in *.
  destruct (readLive CONSTANTS.KEY_STORE.ROTATION_TIMER_KEY w1) as [[jwk|td|id]|].
  - rewrite (bind_ok _ _ _ _ _ (fallible_ok _ _ (calm_le 1 3 _ ltac:(lia) H3))).
    rewrite arm_then; [reflexivity|].
    rewrite faults_consume. apply (calm_skipn 1 2), H3.
  - rewrite (bind_ok _ _ _ _ _ (fallible_ok _ _ (calm_le 1 3 _ ltac:(lia) H3))).
    rewrite arm_then; [reflexivity|].
    rewrite faults_consume. apply (calm_skipn 1 2), H3.
  - rewrite (bind_ok _ _ _ _ _ (timers_unset_ok _ _ (calm_le 1 3 _ ltac:(lia) H3))).
    rewrite arm_then; [reflexivity|].
    apply (calm_skipn 1 2), H3.
  - unfold bind at 1. unfold ret at 1.
    rewrite arm_then; [reflexivity|].
    apply (calm_le 2 3); [lia | exact H3].
Qed.

Section Sync.

Variable app : App.
Variable w : World.

Let config := app_config app.
Let appUrl := app_url app.

Hypothesis valid : 10 <= expirationMinutes config.

Lemma onSync_bootstrap :
  calm 6 (faults w) = true ->
  readLive CONSTANTS.KEY_STORE.CURRENT_TOKEN_KEY w = None ->
  onSync app w
  = (Ok (Ready (createSignalUpdates (newToken config appUrl (consume 1 w))
                  appUrl (keyring config))),
     afterInitialSetup config appUrl (consume 1 w)).
Proof.
  intros H Hread. unfold onSync, try_catch.
  apply Z.ltb_ge in valid. fold config. rewrite valid.
  rewrite (bind_ok _ _ _ _ _ (kv_get_ok _ _ (calm_le 1 6 _ ltac:(lia) H))).
  rewrite Hread.
  rewrite (bind_ok _ _ _ _ _ (handleInitialSetup_ok config appUrl _ (consume 1 w)
                                (calm_skipn 1 5 _ H))).
  reflexivity.
Qed.

Lemma onSync_regenerate v :
  calm 8 (faults w) = true ->
  readLive CONSTANTS.KEY_STORE.CURRENT_TOKEN_KEY w = Some v ->
  configHash_of v <> Some (hashConfig config) ->
  onSync app w
  = (Ok (Ready (createSignalUpdates (newToken config appUrl (consume 1 w))
                  appUrl (keyring config))),
     afterConfigChange config appUrl (consume 1 w)).
Proof.
  intros H Hread Hne. unfold onSync, try_catch.
  apply Z.ltb_ge in valid. fold config. rewrite valid.
  rewrite (bind_ok _ _ _ _ _ (kv_get_ok _ _ (calm_le 1 8 _ ltac:(lia) H))).
  rewrite Hread.
  pose proof (handleConfigChange_ok config appUrl (keyring config) (consume 1 w)
                (calm_skipn 1 7 _ H)) as E.
  destruct v as [jwk|td|id].
  - rewrite (bind_ok _ _ _ _ _ E). reflexivity.
  - destruct (String.eqb_spec (configHash td) (hashConfig config)) as [Heq|_].
    + exfalso. apply Hne. simpl. rewrite Heq. reflexivity.
    + cbn [negb]. rewrite (bind_ok _ _ _ _ _ E). reflexivity.
  - rewrite (bind_ok _ _ _ _ _ E). reflexivity.
Qed.

Lemma onSync_reuse tokenData :
  calm 1 (faults w) = true ->
  readLive CONSTANTS.KEY_STORE.CURRENT_TOKEN_KEY w = Some (VToken tokenData) ->
  configHash tokenData = hashConfig config ->
  onSync app w
  = (Ok (Ready (createSignalUpdates tokenData appUrl
                  (js_or (sig_keyring (app_signals app)) Some (keyring config)))),
     consume 1 w).
Proof.
  intros H Hread Heq. unfold onSync, try_catch.
  apply Z.ltb_ge in valid. fold config. rewrite valid.
  rewrite (bind_ok _ _ _ _ _ (kv_get_ok _ _ H)).
  rewrite Hread, Heq, String.eqb_refl. reflexivity.
Qed.

End Sync.

Lemma js_or_stable (a b : option string) :
  js_or (js_or a Some b) Some b = js_or a Some b.
Proof.
  destruct a as [[|c s]|]; simpl; try reflexivity;
    destruct b as [[|c' s']|]; reflexivity.
Qed.

Lemma js_or_self (b : option string) : js_or b Some b = b.
Proof. destruct b as [[|c s]|]; reflexivity. Qed.

(** C2 (as stated, refuted): the token was persisted by a pass that failed
    before anything was published; the next pass, with the same
    configuration, reuses the token and publishes the keyring of the
    configuration, although no keyring had been published. *)
Lemma onSync_reuse_takes_config_keyring :
  fst (onSync stalled_app (sample_world ∅ [false; false; false; false; true]))
    = Ok (Failed SYNC_ERROR)
  /\ exists record tokenData updates w',
       kv stalled_world !! CONSTANTS.KEY_STORE.CURRENT_TOKEN_KEY = Some record
       /\ kv_value_of record = VToken tokenData
       /\ configHash tokenData = hashConfig (app_config stalled_app)
       /\ onSync stalled_app stalled_world = (Ok (Ready updates), w')
       /\ su_token updates = token tokenData
       /\ sig_keyring (app_signals stalled_app) = None
       /\ su_keyring updates = Some "v2"
       /\ su_keyring updates <> sig_keyring (app_signals stalled_app).
Proof.
  split; [vm_compute; reflexivity|].
  eexists _, _, _, _.
  split; [vm_compute; reflexivity|].
  split; [reflexivity|].
  split; [vm_compute; reflexivity|].
  split; [vm_compute; reflexivity|].
  split; [reflexivity|].
  split; [reflexivity|].
  split; [reflexivity | discriminate].
Qed.

Lemma onSync_invalid (app : App) (w : World) :
  expirationMinutes (app_config app) < 10 ->
  onSync app w = (Ok (Failed EXPIRATION_DIAGNOSTIC), w).
Proof.
  intros H. unfold onSync, try_catch. apply Z.ltb_lt in H. rewrite H.
  reflexivity.
Qed.

Lemma calm_rejected l : calm 1 l = false -> exists rest, l = true :: rest.
Proof.
  destruct l as [|[] l]; try discriminate. intros _. eexists. reflexivity.
Qed.

Lemma onSync_read_rejected (app : App) (w : World) (rest : list bool) :
  10 <= expirationMinutes (app_config app) ->
  faults w = true :: rest ->
  onSync app w = (Ok (Failed SYNC_ERROR), set_faults rest w).
Proof.
  intros Hv Hf. unfold onSync, try_catch. apply Z.ltb_ge in Hv. rewrite Hv.
  unfold kv_get.
  rewrite (bind_thrown _ _ _ _ _
             (bind_thrown _ _ _ _ _ (fallible_rejected OpKvGet w rest Hf))).
  reflexivity.
Qed.

(** A pass over a stored token with the fingerprint of the configuration:
    its three outcomes, none of which touches anything but the fault
    schedule. *)
Lemma onSync_reuse_cases (app : App) (w : World) (tokenData : TokenData) :
  readLive CONSTANTS.KEY_STORE.CURRENT_TOKEN_KEY w = Some (VToken tokenData) ->
  configHash tokenData = hashConfig (app_config app) ->
  exists r schedule,
    onSync app w = (Ok r, set_faults schedule w)
    /\ (expirationMinutes (app_config app) < 10 ->
        r = Failed EXPIRATION_DIAGNOSTIC)
    /\ (10 <= expirationMinutes (app_config app) ->
        calm 1 (faults w) = false -> r = Failed SYNC_ERROR)
    /\ (10 <= expirationMinutes (app_config app) ->
        calm 1 (faults w) = true ->
        r = Ready (createSignalUpdates tokenData (app_url app)
                     (js_or (sig_keyring (app_signals app)) Some
                        (keyring (app_config app))))).
Proof.
  intros Hread Hh.
  destruct (Z.lt_ge_cases (expirationMinutes (app_config app)) 10) as [Hlt|Hv].
  - exists (Failed EXPIRATION_DIAGNOSTIC), (faults w).
    split; [rewrite (onSync_invalid app w Hlt); destruct w; reflexivity|].
    split; [reflexivity|]. split; intros; lia.
  - destruct (calm 1 (faults w)) eqn:Hc.
    + eexists _, _.
      split; [apply (onSync_reuse app w Hv tokenData Hc Hread Hh)|].
      split; [intros; lia|]. split; [discriminate | reflexivity].
    + destruct (calm_rejected _ Hc) as [rest Hf].
      exists (Failed SYNC_ERROR), rest.
      split; [apply (onSync_read_rejected app w rest Hv Hf)|].
      split; [intros; lia|]. split; [reflexivity | discriminate].
Qed.

(** C2 (amended): when the persisted token carries the fingerprint of the
    current configuration, the pass generates nothing and touches neither
    the store nor the timers. With [expirationMinutes >= 10] and the read of
    the token accepted it ends ready and republishes that token and its
    expiry unchanged; the keyring it publishes is the published keyring
    signal when that is set, and the keyring of the configuration when the
    signal is unset or empty. Below 10 minutes it ends failed with the
    expiration diagnostic, and with the generic sync error when the read is
    rejected, publishing nothing. After a ready pass, a second pass with the
    same configuration leaves the published signals as they are. *)
Theorem onSync_reuse_publishes (app : App) (w : World)
    (record : kv_entry) (tokenData : TokenData) :
  kv w !! CONSTANTS.KEY_STORE.CURRENT_TOKEN_KEY = Some record ->
  live (now_s w) record = true ->
  kv_value_of record = VToken tokenData ->
  configHash tokenData = hashConfig (app_config app) ->
  exists activeKeyring r w',
    let updates := mkUpdates (token tokenData) (expiresAt tokenData)
                     (origin (app_url app)) activeKeyring in
    onSync app w = (Ok r, w')
    /\ kv w' = kv w
    /\ armed w' = armed w
    /\ sync_requests w' = sync_requests w
    /\ drawn w' = drawn w
    /\ (10 <= expirationMinutes (app_config app) ->
        calm 1 (faults w) = true -> r = Ready updates)
    /\ (expirationMinutes (app_config app) < 10 ->
        r = Failed EXPIRATION_DIAGNOSTIC)
    /\ (10 <= expirationMinutes (app_config app) ->
        calm 1 (faults w) = false -> r = Failed SYNC_ERROR)
    /\ (forall k, sig_keyring (app_signals app) = Some k -> k <> EmptyString ->
          activeKeyring = Some k)
    /\ (sig_keyring (app_signals app) = None
        \/ sig_keyring (app_signals app) = Some EmptyString ->
          activeKeyring = keyring (app_config app))
    /\ (r = Ready updates ->
        exists r2 w2,
          onSync (publish r app) w' = (Ok r2, w2)
          /\ (calm 1 (faults w') = true -> r2 = Ready updates)
          /\ (calm 1 (faults w') = false -> r2 = Failed SYNC_ERROR)
          /\ app_signals (publish r2 (publish r app))
             = app_signals (publish r app)
          /\ kv w2 = kv w
          /\ armed w2 = armed w).
Proof.
  intros Hk Hl Hval Hh.
  assert (Hread : readLive CONSTANTS.KEY_STORE.CURRENT_TOKEN_KEY w
                  = Some (VToken tokenData))
    by (unfold readLive; rewrite Hk, Hl, Hval; reflexivity).
  destruct (onSync_reuse_cases app w tokenData Hread Hh)
    as (r & schedule & E & Hlow & Hrej & Hok).
  exists (js_or (sig_keyring (app_signals app)) Some (keyring (app_config app))),
    r, (set_faults schedule w).
  cbv zeta.
  split; [exact E|].
  split; [reflexivity|]. split; [reflexivity|]. split; [reflexivity|].
  split; [reflexivity|].
  split; [exact Hok|]. split; [exact Hlow|]. split; [exact Hrej|].
  split; [intros k Hs Hne; rewrite Hs; destruct k; [congruence | reflexivity]|].
  split; [intros [Hs | Hs]; rewrite Hs; reflexivity|].
  intros ->.
  assert (Hv : 10 <= expirationMinutes (app_config app)).
  { destruct (Z.lt_ge_cases (expirationMinutes (app_config app)) 10) as [Hlt|Hv];
      [discriminate (Hlow Hlt) | exact Hv]. }
  set (updates := mkUpdates (token tokenData) (expiresAt tokenData)
                    (origin (app_url app))
                    (js_or (sig_keyring (app_signals app)) Some
                       (keyring (app_config app)))).
  destruct (onSync_reuse_cases (publish (Ready updates) app)
              (set_faults schedule w) tokenData Hread Hh)
    as (r2 & schedule2 & E2 & _ & Hrej2 & Hok2).
  assert (Same : createSignalUpdates tokenData
                   (app_url (publish (Ready updates) app))
                   (js_or (sig_keyring (app_signals (publish (Ready updates) app)))
                      Some (keyring (app_config (publish (Ready updates) app))))
                 = updates).
  { cbn [publish app_config app_signals sig_keyring app_url su_keyring updates].
    subst updates. cbn [su_keyring]. rewrite js_or_stable. reflexivity. }
  rewrite Same in Hok2.
  exists r2, (set_faults schedule2 (set_faults schedule w)).
  split; [exact E2|].
  split; [exact (Hok2 Hv)|]. split; [exact (Hrej2 Hv)|].
  split; [|split; reflexivity].
  destruct (calm 1 (faults (set_faults schedule w))) eqn:Hc.
  - rewrite (Hok2 Hv eq_refl). reflexivity.
  - rewrite (Hrej2 Hv eq_refl). reflexivity.
Qed.

Lemma onSync_reuse_publishes_witness :
  exists w',
    onSync running_app stalled_world
    = (Ok (Ready (mkUpdates (token stalled_token) (expiresAt stalled_token)
                    (origin sample_url) (Some "v1"))), w')
    /\ kv w' = kv stalled_world
    /\ armed w' = armed stalled_world.
Proof.
  destruct (onSync_reuse_publishes running_app stalled_world
              (mkEntry (VToken stalled_token) 1700000000 None) stalled_token)
    as (activeKeyring & r & w' & E & K & A & _ & _ & R & _ & _ & S & _).
  - vm_compute. reflexivity.
  - reflexivity.
  - reflexivity.
  - reflexivity.
  - exists w'.
    rewrite (R ltac:(vm_compute; discriminate) eq_refl) in E.
    rewrite (S "v1" eq_refl ltac:(discriminate)) in E.
    split; [exact E|]. split; [exact K | exact A].
Defined.
(** ** Reconciling twice *)

Lemma kv_afterUnset existing w : kv (afterUnset existing w) = kv w.
Proof. destruct existing as [[jwk|td|id]|]; reflexivity. Qed.

Lemma calm_afterUnset n existing w :
  calm (S n) (faults w) = true -> calm n (faults (afterUnset existing w)) = true.
Proof.
  intros H. destruct existing as [[jwk|td|id]|];
    try (apply (calm_skipn 1 n), H).
  apply (calm_le n (S n)); [lia | exact H].
Qed.

Lemma readLive_token_stored key e m w :
  key <> CONSTANTS.KEY_STORE.CURRENT_TOKEN_KEY ->
  kv w = store_put key e m ->
  forall tokenData created,
    m !! CONSTANTS.KEY_STORE.CURRENT_TOKEN_KEY = Some (mkEntry (VToken tokenData) created None) ->
    readLive CONSTANTS.KEY_STORE.CURRENT_TOKEN_KEY w = Some (VToken tokenData).
Proof.
  intros Hne Hkv tokenData created Hm. unfold readLive.
  rewrite Hkv. unfold store_put. rewrite lookup_insert_ne by exact Hne.
  rewrite Hm. reflexivity.
Qed.

Lemma token_afterGeneration config appUrl w :
  storeAfterGeneration config appUrl w !! CONSTANTS.KEY_STORE.CURRENT_TOKEN_KEY
  = Some (mkEntry (VToken (newToken config appUrl w)) (now_s w) None).
Proof. unfold storeAfterGeneration, store_put. apply lookup_insert_eq. Qed.

Lemma readLive_afterInitialSetup config appUrl w :
  readLive CONSTANTS.KEY_STORE.CURRENT_TOKEN_KEY (afterInitialSetup config appUrl w)
  = Some (VToken (newToken config appUrl w)).
Proof.
  apply (readLive_token_stored CONSTANTS.KEY_STORE.ROTATION_TIMER_KEY
           (mkEntry (VTimer (next_timer (afterGeneration config appUrl w)))
                    (now_s (afterGeneration config appUrl w)) None)
           (storeAfterGeneration config appUrl w)
           (afterInitialSetup config appUrl w)
           ltac:(discriminate) eq_refl _ _ (token_afterGeneration config appUrl w)).
Qed.

Lemma readLive_afterConfigChange config appUrl w :
  readLive CONSTANTS.KEY_STORE.CURRENT_TOKEN_KEY (afterConfigChange config appUrl w)
  = Some (VToken (newToken config appUrl w)).
Proof.
  assert (K : exists e, kv (afterConfigChange config appUrl w)
                        = store_put CONSTANTS.KEY_STORE.ROTATION_TIMER_KEY e
                            (storeAfterGeneration config appUrl w)).
  { unfold afterConfigChange. cbv zeta. unfold afterArming at 1.
    cbn [set_kv kv]. rewrite kv_afterUnset. eexists. reflexivity. }
  destruct K as [e K].
  apply (readLive_token_stored CONSTANTS.KEY_STORE.ROTATION_TIMER_KEY e
           (storeAfterGeneration config appUrl w) _
           ltac:(discriminate) K _ _ (token_afterGeneration config appUrl w)).
Qed.

(** Two passes in a row under one configuration, no platform call rejected:
    whatever the first pass did, the second publishes the same token, expiry,
    issuer and keyring, and leaves store and timers as they are. *)
Lemma onSync_twice (app : App) (w : World) :
  10 <= expirationMinutes (app_config app) ->
  calm 9 (faults w) = true ->
  exists updates w1,
    onSync app w = (Ok (Ready updates), w1)
    /\ onSync (publish (Ready updates) app) w1 = (Ok (Ready updates), consume 1 w1).
Proof.
  intros Hv H.
  assert (H8 : calm 8 (faults w) = true) by (apply (calm_le 8 9); [lia | exact H]).
  assert (H8' : calm 8 (faults (consume 1 w)) = true) by (apply (calm_skipn 1 8), H).
  destruct (readLive CONSTANTS.KEY_STORE.CURRENT_TOKEN_KEY w) as [v|] eqn:Hread.
  - destruct (decide (configHash_of v = Some (hashConfig (app_config app))))
      as [Heq|Hne].
    + destruct v as [jwk|tokenData|id]; try discriminate Heq.
      injection Heq as Heq. eexists _, _. split.
      * apply (onSync_reuse app w Hv tokenData);
          [apply (calm_le 1 9); [lia | exact H] | exact Hread | exact Heq].
      * rewrite (onSync_reuse (publish (Ready _) app) (consume 1 w) Hv tokenData).
        -- cbn [publish app_config app_signals sig_keyring app_url
                createSignalUpdates su_keyring].
           rewrite js_or_stable. reflexivity.
        -- apply (calm_le 1 8); [lia | exact H8'].
        -- exact Hread.
        -- exact Heq.
    + eexists _, _. split; [apply (onSync_regenerate app w Hv v H8 Hread Hne)|].
      rewrite (onSync_reuse (publish (Ready _) app) _ Hv
                 (newToken (app_config app) (app_url app) (consume 1 w))).
      * cbn [publish app_config app_signals sig_keyring app_url
             createSignalUpdates su_keyring].
        rewrite js_or_self. reflexivity.
      * unfold afterConfigChange. cbv zeta. unfold afterArming at 1.
        change (calm 1 (skipn 2 (faults
                 (afterUnset
                    (readLive CONSTANTS.KEY_STORE.ROTATION_TIMER_KEY
                       (afterGeneration (app_config app) (app_url app) (consume 1 w)))
                    (consume 1 (afterGeneration (app_config app) (app_url app)
                                  (consume 1 w)))))) = true).
        apply (calm_skipn 2 1), (calm_afterUnset 3).
        apply (calm_skipn 1 4). rewrite faults_afterGeneration.
        apply (calm_skipn 3 5). apply (calm_le 8 8); [lia | exact H8'].
      * apply readLive_afterConfigChange.
      * reflexivity.
  - eexists _, _. split.
    + apply (onSync_bootstrap app w Hv); [apply (calm_le 6 9); [lia | exact H] | exact Hread].
    + rewrite (onSync_reuse (publish (Ready _) app) _ Hv
                 (newToken (app_config app) (app_url app) (consume 1 w))).
      * cbn [publish app_config app_signals sig_keyring app_url
             createSignalUpdates su_keyring].
        rewrite js_or_self. reflexivity.
      * change (calm 1 (skipn 2 (skipn 3 (faults (consume 1 w)))) = true).
        apply (calm_skipn 2 1), (calm_skipn 3 3).
        apply (calm_le 6 8); [lia | exact H8'].
      * apply readLive_afterInitialSetup.
      * reflexivity.
Qed.

(** ** The rotation wakeup *)

(** C4 (as stated, refuted): two rotation wakeups inside the claim. In the
    first, [kv.app.setMany] is rejected and then the [kv.app.set] of the
    retry handle is rejected too: the handler rejects, a retry wakeup is
    armed and its handle is stored nowhere. In the second, the sync request
    is rejected: by then the current token has been replaced and a new key
    written. *)
Lemma onTimer_failure_not_contained :
  (exists w',
     onTimer running_app
       (set_faults [false; false; true; false; true] stalled_world)
     = (Thrown OpKvSet, w')
     /\ armed w' = [mkTimer 0%nat 300 RETRY_DESCRIPTION]
     /\ kv w' !! CONSTANTS.KEY_STORE.ROTATION_TIMER_KEY = None)
  /\ (exists w' before after,
       onTimer running_app
         (set_faults (schedule_of SignalingFails) stalled_world)
       = (Ok tt, w')
       /\ kv stalled_world !! CONSTANTS.KEY_STORE.CURRENT_TOKEN_KEY = Some before
       /\ kv w' !! CONSTANTS.KEY_STORE.CURRENT_TOKEN_KEY = Some after
       /\ before <> after
       /\ kv stalled_world !! "key:v2:uuid-3" = None
       /\ is_Some (kv w' !! "key:v2:uuid-3")).
Proof.
  split.
  - eexists. split; [vm_compute; reflexivity|].
    split; vm_compute; reflexivity.
  - eexists _, _, _. split; [vm_compute; reflexivity|].
    split; [vm_compute; reflexivity|].
    split; [vm_compute; reflexivity|].
    split; [intros [= _ H]; discriminate H|].
    split; [vm_compute; reflexivity|].
    vm_compute. eexists. reflexivity.
Qed.

(** C4 (amended): when a rotation wakeup has its key generation, its token
    signing, its [kv.app.setMany] or its sync request rejected, and the
    [timers.set] and [kv.app.set] of the retry are accepted, the handler
    arms exactly one wakeup, 300 seconds ahead, and stores its handle; no
    sync request has gone through, so the published signals stay as they
    are. Unless it was the sync request that failed, no other record of the
    store changes. When the sync request failed, the new key and the new
    current token are stored already, and every other record is unchanged. *)
Theorem onTimer_failure_retry (app : App) (w : World)
    (f : RotationFault) (rest : list bool) :
  faults w = (schedule_of f ++ rest)%list ->
  calm 2 rest = true ->
  exists w',
    onTimer app w = (Ok tt, w')
    /\ armed w' = (armed w ++ [mkTimer (next_timer w) 300 RETRY_DESCRIPTION])%list
    /\ kv w' !! CONSTANTS.KEY_STORE.ROTATION_TIMER_KEY
       = Some (mkEntry (VTimer (next_timer w)) (now_s w) None)
    /\ sync_requests w' = sync_requests w
    /\ (f <> SignalingFails ->
        forall key, key <> CONSTANTS.KEY_STORE.ROTATION_TIMER_KEY ->
                    kv w' !! key = kv w !! key)
    /\ (f = SignalingFails ->
        kv w' !! CONSTANTS.KEY_STORE.CURRENT_TOKEN_KEY
        = Some (mkEntry (VToken (newToken (app_config app) (app_url app) w))
                  (now_s w) None)
        /\ kv w' !! keyName (app_config app) (newKeyId w)
           = Some (newKeyEntry (app_config app) w)
        /\ forall key,
             key <> CONSTANTS.KEY_STORE.ROTATION_TIMER_KEY ->
             key <> CONSTANTS.KEY_STORE.CURRENT_TOKEN_KEY ->
             key <> keyName (app_config app) (newKeyId w) ->
             kv w' !! key = kv w !! key).
Proof.
  destruct w as [ms m ts nt sr ob e d ps fs]. cbn [faults kv armed next_timer
    sync_requests now_s clock_ms].
  intros -> Hrest.
  destruct f; cbn [schedule_of List.app]; run;
    destruct rest as [|[] [|[] rest]]; try discriminate Hrest;
    (eexists; split; [reflexivity|]);
    cbn [armed kv sync_requests]; unfold store_put;
    (split; [reflexivity|]);
    (split; [apply lookup_insert_eq|]);
    (split; [reflexivity|]);
    (split;
     [intros Hf key Hne; try congruence;
      rewrite lookup_insert_ne by (apply not_eq_sym, Hne); reflexivity
     |intros Hf;
      first
        [discriminate Hf
        |split;
         [rewrite lookup_insert_ne by discriminate; apply lookup_insert_eq|];
         split;
         [rewrite lookup_insert_ne by (apply not_eq_sym, keyName_not_timer);
          rewrite lookup_insert_ne by (apply not_eq_sym, keyName_not_token);
          apply lookup_insert_eq|];
         intros key H1 H2 H3;
         rewrite lookup_insert_ne by (apply not_eq_sym, H1);
         rewrite lookup_insert_ne by (apply not_eq_sym, H2);
         rewrite lookup_insert_ne by (apply not_eq_sym, H3); reflexivity]]).
Qed.

Lemma onTimer_failure_retry_witness :
  exists w',
    onTimer running_app (set_faults (schedule_of SignalingFails) stalled_world)
    = (Ok tt, w')
    /\ armed w' = [mkTimer 0%nat 300 RETRY_DESCRIPTION]
    /\ sync_requests w' = 0%nat
    /\ is_Some (kv w' !! "key:v2:uuid-3")
    /\ kv w' !! "key:v2:uuid-0" = kv stalled_world !! "key:v2:uuid-0".
Proof.
  destruct (onTimer_failure_retry running_app
              (set_faults (schedule_of SignalingFails) stalled_world)
              SignalingFails [])
    as (w' & E & A & _ & S & _ & F).
  - reflexivity.
  - reflexivity.
  - destruct (F eq_refl) as (_ & K & O).
    exists w'. split; [exact E|]. split; [exact A|]. split; [exact S|].
    split; [eexists; exact K|].
    apply O; vm_compute; discriminate.
Defined.
(** ** Validation and bootstrap *)

Lemma onSync_ready (app : App) (w : World) :
  10 <= expirationMinutes (app_config app) ->
  calm 8 (faults w) = true ->
  exists updates w', onSync app w = (Ok (Ready updates), w').
Proof.
  intros Hv H.
  destruct (readLive CONSTANTS.KEY_STORE.CURRENT_TOKEN_KEY w) as [v|] eqn:Hread.
  - destruct (decide (configHash_of v = Some (hashConfig (app_config app))))
      as [Heq|Hne].
    + destruct v as [jwk|tokenData|id]; try discriminate Heq.
      injection Heq as Heq. eexists _, _.
      apply (onSync_reuse app w Hv tokenData);
        [apply (calm_le 1 8); [lia | exact H] | exact Hread | exact Heq].
    + eexists _, _. apply (onSync_regenerate app w Hv v H Hread Hne).
  - eexists _, _. apply (onSync_bootstrap app w Hv);
      [apply (calm_le 6 8); [lia | exact H] | exact Hread].
Qed.

(** C7: below 10 minutes the pass ends failed with the diagnostic and the
    world is untouched; from 10 minutes on the pass gets past the validation:
    it ends ready, or failed with the generic sync error, and ready when no
    platform call is rejected. *)
Theorem onSync_validation (app : App) (w : World) :
  (expirationMinutes (app_config app) < 10 ->
   onSync app w = (Ok (Failed EXPIRATION_DIAGNOSTIC), w))
  /\ (10 <= expirationMinutes (app_config app) ->
      exists r w',
        onSync app w = (Ok r, w')
        /\ (r = Failed SYNC_ERROR \/ exists updates, r = Ready updates))
  /\ (10 <= expirationMinutes (app_config app) ->
      calm 8 (faults w) = true ->
      exists updates w', onSync app w = (Ok (Ready updates), w')).
Proof.
  split; [|split; [|apply onSync_ready]]; intros H; unfold onSync, try_catch.
  - apply Z.ltb_lt in H. rewrite H. reflexivity.
  - apply Z.ltb_ge in H. rewrite H. unfold bind at 1.
    destruct (kv_get CONSTANTS.KEY_STORE.CURRENT_TOKEN_KEY w) as [[currentToken|e] w1];
      [|eexists _, _; split; [reflexivity | left; reflexivity]].
    unfold bind.
    match goal with
    | |- context [match ?m w1 with _ => _ end] =>
        destruct (m w1) as [[r|e] w2]
    end.
    + eexists _, _. split; [reflexivity | right; eexists; reflexivity].
    + eexists _, _. split; [reflexivity | left; reflexivity].
Qed.

Lemma onSync_validation_witness :
  onSync (mkApp (mkConfig 9 None None None) sample_url no_signals)
         (sample_world ∅ [])
  = (Ok (Failed EXPIRATION_DIAGNOSTIC), sample_world ∅ [])
  /\ exists updates w',
       onSync (mkApp (mkConfig 10 None None None) sample_url no_signals)
              (sample_world ∅ [])
       = (Ok (Ready updates), w').
Proof.
  split.
  - apply (proj1 (onSync_validation
                    (mkApp (mkConfig 9 None None None) sample_url no_signals)
                    (sample_world ∅ []))).
    reflexivity.
  - apply (proj2 (proj2 (onSync_validation
                    (mkApp (mkConfig 10 None None None) sample_url no_signals)
                    (sample_world ∅ [])))).
    + discriminate.
    + reflexivity.
Defined.

Lemma keyName_default config id :
  keyring config = None -> keyName config id = "key:default:" ++ id.
Proof. intros H. unfold keyName. rewrite H. reflexivity. Qed.

(** C10: a bootstrap pass under a configuration without a keyring stores
    the new public key under [key:default:] and publishes no keyring; the
    JWKS handler then answers with an empty key set although that key is
    live in the store. *)
Theorem bootstrap_without_keyring (app : App) (w : World) (requestId : string) :
  10 <= expirationMinutes (app_config app) ->
  keyring (app_config app) = None ->
  kv w !! CONSTANTS.KEY_STORE.CURRENT_TOKEN_KEY = None ->
  calm 6 (faults w) = true ->
  exists updates w' record,
    onSync app w = (Ok (Ready updates), w')
    /\ su_keyring updates = None
    /\ kv w' !! ("key:default:" ++ newKeyId w) = Some record
    /\ kv_value_of record = VKey (snd (newKeyPair w))
    /\ live (now_s w') record = true
    /\ handleJWKs requestId (publish (Ready updates) app) w'
       = (Ok tt, set_outbox (outbox w' ++ [(requestId, EMPTY_JWKS)]) w').
Proof.
  intros Hv Hk Hnone H.
  assert (Hread : readLive CONSTANTS.KEY_STORE.CURRENT_TOKEN_KEY w = None)
    by (unfold readLive; rewrite Hnone; reflexivity).
  eexists _, _, (newKeyEntry (app_config app) w).
  split; [apply (onSync_bootstrap app w Hv H Hread)|].
  split; [exact Hk|].
  split.
  { rewrite <- (keyName_default (app_config app)) by exact Hk.
    destruct w as [ms m ts nt sr ob e d ps fs].
    cbn [afterInitialSetup afterArming afterGeneration set_kv kv].
    unfold storeAfterGeneration, store_put.
    rewrite lookup_insert_ne by (apply not_eq_sym, keyName_not_timer).
    rewrite lookup_insert_ne by (apply not_eq_sym, keyName_not_token).
    apply lookup_insert_eq. }
  split; [reflexivity|].
  split.
  { unfold live, newKeyEntry, keyTtlSeconds, CONSTANTS.KEY_GRACE_PERIOD_MINUTES.
    cbn [kv_expiresAt]. apply Z.ltb_lt.
    change (now_s (afterInitialSetup (app_config app) (app_url app) (consume 1 w)))
      with (now_s w).
    lia. }
  apply handleJWKs_no_signal. cbn [publish app_signals sig_keyring].
  cbn [createSignalUpdates su_keyring]. exact Hk.
Qed.

Lemma bootstrap_without_keyring_witness :
  exists updates w' record,
    onSync unkeyed_app (sample_world ∅ []) = (Ok (Ready updates), w')
    /\ su_keyring updates = None
    /\ kv w' !! "key:default:uuid-0" = Some record
    /\ live (now_s w') record = true
    /\ handleJWKs "req-1" (publish (Ready updates) unkeyed_app) w'
       = (Ok tt, set_outbox [("req-1", EMPTY_JWKS)] w').
Proof.
  destruct (bootstrap_without_keyring unkeyed_app (sample_world ∅ []) "req-1")
    as (updates & w' & record & E & K & L & _ & V & J).
  - discriminate.
  - reflexivity.
  - reflexivity.
  - reflexivity.
  - exists updates, w', record.
    split; [exact E|]. split; [exact K|]. split; [exact L|]. split; [exact V|].
    assert (O : outbox w' = [])
      by (replace w' with (snd (onSync unkeyed_app (sample_world ∅ [])))
            by (rewrite E; reflexivity);
          reflexivity).
    rewrite J, O. reflexivity.
Defined.

(** * Further properties of the code *)

(** ** Issued tokens *)

Lemma obj_get_absent k (o : obj) : ~ In k (map fst o) -> obj_get k o = None.
Proof.
  induction o as [|[k' v] o IH]; intros H; simpl; [reflexivity|].
  destruct (String.eqb_spec k' k) as [->|Hne].
  - exfalso. apply H. simpl. left. reflexivity.
  - apply IH. intros Hin. apply H. simpl. right. exact Hin.
Qed.

Lemma obj_get_spread k (src : obj) : forall base,
  NoDup (map fst src) ->
  obj_get k (obj_spread src base)
  = match obj_get k src with
    | Some v => Some v
    | None => obj_get k base
    end.
Proof.
  induction src as [|[k1 v1] src IH]; intros base ND; [reflexivity|].
  apply NoDup_cons in ND as [Hnot ND].
  change (obj_spread ((k1, v1) :: src) base)
    with (obj_spread src (obj_set k1 v1 base)).
  rewrite (IH _ ND). cbn [obj_get].
  destruct (String.eqb_spec k1 k) as [->|Hne].
  - rewrite obj_get_absent, obj_get_set_eq; [reflexivity|].
    intros Hin. apply Hnot. apply list_elem_of_In in Hin.
    apply list_elem_of_fmap in Hin as (q & -> & Hq).
    apply list_elem_of_fmap. exists q. split; [reflexivity | exact Hq].
  - rewrite obj_get_set_ne by congruence. reflexivity.
Qed.

(** X2: an issued token is consistent in its times: [iat] and [nbf] are the
    clock in whole seconds, [exp] is [expirationMinutes * 60] seconds later,
    and the [expiresAt] of the token record is that same [exp]; the record
    carries the fingerprint of the configuration and the header names the
    key id it was given. *)
Theorem issued_token_times (config : AppConfig) (appUrl : Url)
    (kid : string) (privateKey : obj) (w : World) :
  calm 1 (faults w) = true ->
  exists tokenData w',
    generateToken config appUrl kid privateKey w = (Ok tokenData, w')
    /\ obj_get "iat" (jwt_payload (token tokenData)) = Some (JNum (clock_ms w / 1000))
    /\ obj_get "nbf" (jwt_payload (token tokenData)) = Some (JNum (clock_ms w / 1000))
    /\ obj_get "exp" (jwt_payload (token tokenData))
       = Some (JNum (expiresAt tokenData))
    /\ expiresAt tokenData = clock_ms w / 1000 + expirationMinutes config * 60
    /\ configHash tokenData = hashConfig config
    /\ obj_get "kid" (jwt_header (token tokenData)) = Some (JStr kid)
    /\ jwt_key (token tokenData) = privateKey.
Proof.
  intros H. apply calm_hd in H.
  eexists _, _. split; [apply generateToken_ok, H|].
  cbn [issuedToken token jwt_payload jwt_header jwt_key expiresAt configHash].
  repeat split;
    try (apply tokenPayload_standard; unfold standardClaims; cbn [In]; tauto).
Qed.

Lemma issued_token_times_witness :
  exists tokenData w',
    generateToken (mkConfig 60 None (Some [("exp", JNum 0)]) None)
      sample_url "kid-1" [] (sample_world ∅ []) = (Ok tokenData, w')
    /\ obj_get "iat" (jwt_payload (token tokenData)) = Some (JNum 1700000000)
    /\ obj_get "exp" (jwt_payload (token tokenData)) = Some (JNum 1700003600)
    /\ expiresAt tokenData = 1700003600.
Proof.
  destruct (issued_token_times
              (mkConfig 60 None (Some [("exp", JNum 0)]) None)
              sample_url "kid-1" [] (sample_world ∅ []) eq_refl)
    as (tokenData & w' & E & I & _ & X & T & _).
  exists tokenData, w'. split; [exact E|]. split; [exact I|].
  split; [rewrite X, T; reflexivity | exact T].
Defined.

(** X3: an additional claim whose name is not one of the seven standard
    names reaches the payload with its value, and a name that is neither
    standard nor configured is absent from the payload. *)
Theorem additional_claims_kept (config : AppConfig) (appUrl : Url)
    (kid : string) (privateKey : obj) (w : World) (k : string) :
  calm 1 (faults w) = true ->
  NoDup (map fst (default [] (additionalClaims config))) ->
  ~ In k STANDARD_CLAIM_NAMES ->
  exists tokenData w',
    generateToken config appUrl kid privateKey w = (Ok tokenData, w')
    /\ obj_get k (jwt_payload (token tokenData))
       = obj_get k (default [] (additionalClaims config)).
Proof.
  intros H ND Hk. apply calm_hd in H.
  eexists _, _. split; [apply generateToken_ok, H|].
  cbn [issuedToken token jwt_payload]. unfold tokenPayload.
  rewrite obj_get_spread.
  - rewrite obj_get_absent.
    + rewrite (obj_get_spread k _ [] ND).
      destruct (obj_get k (default [] (additionalClaims config))); reflexivity.
    + exact Hk.
  - unfold standardClaims. cbn [map fst]. compute_done.
Qed.

Lemma additional_claims_kept_witness :
  exists tokenData w',
    generateToken
      (mkConfig 60 None (Some [("role", JStr "ci"); ("sub", JStr "root")]) None)
      sample_url "kid-1" [] (sample_world ∅ []) = (Ok tokenData, w')
    /\ obj_get "role" (jwt_payload (token tokenData)) = Some (JStr "ci").
Proof.
  destruct (additional_claims_kept
              (mkConfig 60 None (Some [("role", JStr "ci"); ("sub", JStr "root")]) None)
              sample_url "kid-1" [] (sample_world ∅ []) "role")
    as (tokenData & w' & E & K).
  - reflexivity.
  - compute_done.
  - unfold STANDARD_CLAIM_NAMES. cbn [In].
    intros Hin. repeat (destruct Hin as [Hin|Hin]; [discriminate Hin|]). exact Hin.
  - exists tokenData, w'. split; [exact E | exact K].
Defined.
(** ** Key and token generation, continued *)

(** X4: what [generateKeyAndToken] stores fits the token it returns: the
    public half of the pair whose private half signed the token is stored
    under the keyring prefix followed by the [kid] of the token header, and
    expires 1800 seconds after the token; the token record is stored
    without expiry under [current_token]; no other record changes. *)
Theorem generated_key_matches_token (config : AppConfig) (appUrl : Url)
    (w : World) :
  calm 3 (faults w) = true ->
  exists tokenData w' kid privateKey publicKey,
    generateKeyAndToken config appUrl w = (Ok tokenData, w')
    /\ keypair_at (rng w) (S (drawn w)) = (privateKey, publicKey)
    /\ obj_get "kid" (jwt_header (token tokenData)) = Some (JStr kid)
    /\ jwt_key (token tokenData) = privateKey
    /\ kv w' !! (CONSTANTS.KEY_STORE.getKeyPrefix
                   (js_or (keyring config) id "default") ++ kid)
       = Some (mkEntry (VKey publicKey) (now_s w)
                 (Some (expiresAt tokenData + 1800)))
    /\ kv w' !! CONSTANTS.KEY_STORE.CURRENT_TOKEN_KEY
       = Some (mkEntry (VToken tokenData) (now_s w) None)
    /\ forall key,
         key <> CONSTANTS.KEY_STORE.CURRENT_TOKEN_KEY ->
         key <> CONSTANTS.KEY_STORE.getKeyPrefix
                  (js_or (keyring config) id "default") ++ kid ->
         kv w' !! key = kv w !! key.
Proof.
  intros H.
  exists (newToken config appUrl w), (afterGeneration config appUrl w),
    (newKeyId w), (fst (newKeyPair w)), (snd (newKeyPair w)).
  split; [apply generateKeyAndToken_ok, H|].
  split; [unfold newKeyPair; destruct (keypair_at (rng w) (S (drawn w))); reflexivity|].
  split; [reflexivity|]. split; [reflexivity|].
  change (kv (afterGeneration config appUrl w))
    with (storeAfterGeneration config appUrl w).
  fold (keyName config (newKeyId w)).
  unfold storeAfterGeneration, store_put.
  split; [|split].
  - rewrite lookup_insert_ne by (apply not_eq_sym, keyName_not_token).
    rewrite lookup_insert_eq. unfold newKeyEntry. do 3 f_equal.
    cbn [newToken issuedToken expiresAt]. unfold now_s, keyTtlSeconds,
      CONSTANTS.KEY_GRACE_PERIOD_MINUTES. lia.
  - apply lookup_insert_eq.
  - intros key H1 H2.
    rewrite lookup_insert_ne by (apply not_eq_sym, H1).
    rewrite lookup_insert_ne by (apply not_eq_sym, H2). reflexivity.
Qed.

Lemma generated_key_matches_token_witness :
  exists tokenData w',
    generateKeyAndToken (mkConfig 120 None None (Some "v2")) sample_url
      (sample_world ∅ []) = (Ok tokenData, w')
    /\ obj_get "kid" (jwt_header (token tokenData)) = Some (JStr "uuid-0")
    /\ kv w' !! "key:v2:uuid-0"
       = Some (mkEntry (VKey [("kty", JStr "RSA"); ("n", JStr "1")]) 1700000000
                 (Some (expiresAt tokenData + 1800)))
    /\ expiresAt tokenData = 1700007200.
Proof.
  destruct (generated_key_matches_token (mkConfig 120 None None (Some "v2"))
              sample_url (sample_world ∅ []) eq_refl)
    as (tokenData & w' & kid & privateKey & publicKey & E & P & K & _ & S & T & _).
  assert (Etd : tokenData
                = newToken (mkConfig 120 None None (Some "v2")) sample_url
                    (sample_world ∅ [])).
  { pose proof (generateKeyAndToken_ok (mkConfig 120 None None (Some "v2"))
                  sample_url (sample_world ∅ []) eq_refl) as E'.
    rewrite E in E'. injection E' as -> _. reflexivity. }
  assert (Ekid : kid = "uuid-0").
  { rewrite Etd in K. vm_compute in K. injection K as <-. reflexivity. }
  assert (Epub : publicKey = [("kty", JStr "RSA"); ("n", JStr "1")]).
  { vm_compute in P. injection P as _ <-. reflexivity. }
  exists tokenData, w'. split; [exact E|].
  split; [rewrite K, Ekid; reflexivity|].
  split; [rewrite <- Epub, <- Ekid; exact S|].
  rewrite Etd. reflexivity.
Defined.

Lemma generateKeyAndToken_rejected (config : AppConfig) (appUrl : Url)
    (w : World) (n : nat) (rest : list bool) :
  (n < 3)%nat ->
  faults w = rejectAt n rest ->
  exists e,
    generateKeyAndToken config appUrl w
    = (Thrown e, set_faults rest (set_drawn (drawn w + Nat.min 3 (S (2 * n))) w))
    /\ nth_error generationOps n = Some e.
Proof.
  destruct w as [ms m ts nt sr ob e d ps fs]. cbn [faults drawn].
  intros Hn ->.
  destruct n as [|[|[|n]]]; [| | |lia];
    cbn [rejectAt repeat List.app Nat.min Nat.mul Nat.add]; run;
    eexists; (split; [|reflexivity]);
    rewrite ?Nat.add_1_r, ?Nat.add_succ_r, ?Nat.add_0_r; reflexivity.
Qed.

(** X5: when the key generation, the signing or the [kv.app.setMany] of
    [generateKeyAndToken] is rejected, the error is passed on and nothing
    has been written: store, timers and sync requests are as before. *)
Theorem generation_failure_keeps_store (config : AppConfig) (appUrl : Url)
    (w : World) (n : nat) (rest : list bool) :
  (n < 3)%nat ->
  faults w = rejectAt n rest ->
  exists e w',
    generateKeyAndToken config appUrl w = (Thrown e, w')
    /\ nth_error generationOps n = Some e
    /\ kv w' = kv w
    /\ armed w' = armed w
    /\ sync_requests w' = sync_requests w
    /\ faults w' = rest.
Proof.
  intros Hn Hf.
  destruct (generateKeyAndToken_rejected config appUrl w n rest Hn Hf)
    as (e & E & N).
  eexists _, _. split; [exact E|]. repeat split. exact N.
Qed.

Lemma generation_failure_keeps_store_witness :
  exists w',
    generateKeyAndToken (mkConfig 120 None None None) sample_url
      (sample_world ∅ [false; false; true]) = (Thrown OpKvSetMany, w')
    /\ kv w' = ∅.
Proof.
  destruct (generation_failure_keeps_store (mkConfig 120 None None None)
              sample_url (sample_world ∅ [false; false; true]) 2 [])
    as (e & w' & E & N & K & _).
  - lia.
  - reflexivity.
  - injection N as <-. exists w'. split; [exact E | exact K].
Defined.
(** ** The rotation wakeup, continued *)

(** X6: a rotation wakeup in which no call is rejected stores a new key and
    a new token, has one sync request accepted, arms exactly one wakeup at
    [calculateRotationInterval] minutes and stores its handle; every other
    record of the store is left as it was. The handler does not check the
    10-minute minimum: this holds for every [expirationMinutes]. *)
Theorem onTimer_rotates (app : App) (w : World) :
  calm 6 (faults w) = true ->
  exists w' tokenData,
    onTimer app w = (Ok tt, w')
    /\ armed w'
       = (armed w ++
          [mkTimer (next_timer w)
             (calculateRotationInterval (expirationMinutes (app_config app)) * 60)
             ("Key rotation scheduled for "
                ++ minutes (calculateRotationInterval
                              (expirationMinutes (app_config app))))])%list
    /\ kv w' !! CONSTANTS.KEY_STORE.ROTATION_TIMER_KEY
       = Some (mkEntry (VTimer (next_timer w)) (now_s w) None)
    /\ sync_requests w' = S (sync_requests w)
    /\ kv w' !! CONSTANTS.KEY_STORE.CURRENT_TOKEN_KEY
       = Some (mkEntry (VToken tokenData) (now_s w) None)
    /\ expiresAt tokenData = now_s w + expirationMinutes (app_config app) * 60
    /\ configHash tokenData = hashConfig (app_config app)
    /\ kv w' !! keyName (app_config app) (newKeyId w)
       = Some (newKeyEntry (app_config app) w)
    /\ forall key,
         key <> CONSTANTS.KEY_STORE.ROTATION_TIMER_KEY ->
         key <> CONSTANTS.KEY_STORE.CURRENT_TOKEN_KEY ->
         key <> keyName (app_config app) (newKeyId w) ->
         kv w' !! key = kv w !! key.
Proof.
  destruct w as [ms m ts nt sr ob e d ps fs]. cbn [faults]. intros H. run.
  destruct fs as [|[] [|[] [|[] [|[] [|[] [|[] fs]]]]]]; try discriminate H;
    (eexists _, (newToken (app_config app) (app_url app)
                   (mkWorld ms m ts nt sr ob e d ps []));
     split; [reflexivity|];
     cbn [armed kv sync_requests next_timer now_s clock_ms];
     unfold storeAfterGeneration, store_put;
     cbn [kv now_s clock_ms];
     split; [reflexivity|];
     split; [apply lookup_insert_eq|];
     split; [reflexivity|];
     split; [rewrite lookup_insert_ne by discriminate; apply lookup_insert_eq|];
     split; [reflexivity|];
     split; [reflexivity|];
     split;
     [rewrite lookup_insert_ne by (apply not_eq_sym, keyName_not_timer);
      rewrite lookup_insert_ne by (apply not_eq_sym, keyName_not_token);
      apply lookup_insert_eq
     |intros key H1 H2 H4;
      rewrite lookup_insert_ne by (apply not_eq_sym, H1);
      rewrite lookup_insert_ne by (apply not_eq_sym, H2);
      rewrite lookup_insert_ne by (apply not_eq_sym, H4); reflexivity]).
Qed.

Lemma onTimer_rotates_witness :
  exists w',
    onTimer running_app stalled_world = (Ok tt, w')
    /\ armed w'
       = [mkTimer 0%nat 1800 "Key rotation scheduled for 30 minutes"]
    /\ sync_requests w' = 1%nat
    /\ is_Some (kv w' !! "key:v2:uuid-3")
    /\ kv w' !! "key:v2:uuid-0" = kv stalled_world !! "key:v2:uuid-0".
Proof.
  destruct (onTimer_rotates running_app stalled_world eq_refl)
    as (w' & tokenData & E & A & _ & S & _ & _ & _ & K & F).
  exists w'. split; [exact E|]. split; [exact A|]. split; [exact S|].
  split; [eexists; exact K|].
  apply F; vm_compute; discriminate.
Defined.

(** X7: when the rotation went through and the new wakeup is armed, but
    storing its handle is rejected, the handler takes the failure path all
    the same: it arms the 300-second retry on top, so two wakeups are armed
    and the stored handle is the retry's; the handle of the first one is not
    kept anywhere. *)
Theorem onTimer_handle_lost (app : App) (w : World) (rest : list bool) :
  faults w = rejectAt 5 rest ->
  calm 2 rest = true ->
  exists w',
    onTimer app w = (Ok tt, w')
    /\ armed w'
       = (armed w ++
          [mkTimer (next_timer w)
             (calculateRotationInterval (expirationMinutes (app_config app)) * 60)
             ("Key rotation scheduled for "
                ++ minutes (calculateRotationInterval
                              (expirationMinutes (app_config app))));
           mkTimer (S (next_timer w)) 300 RETRY_DESCRIPTION])%list
    /\ kv w' !! CONSTANTS.KEY_STORE.ROTATION_TIMER_KEY
       = Some (mkEntry (VTimer (S (next_timer w))) (now_s w) None)
    /\ sync_requests w' = S (sync_requests w).
Proof.
  destruct w as [ms m ts nt sr ob e d ps fs].
  cbn [faults armed next_timer kv sync_requests now_s clock_ms].
  intros -> Hrest. cbn [rejectAt repeat List.app]. run.
  destruct rest as [|[] [|[] rest]]; try discriminate Hrest;
    (eexists; split; [reflexivity|]);
    cbn [armed kv sync_requests]; unfold store_put;
    (split; [rewrite <- app_assoc; reflexivity|]);
    (split; [apply lookup_insert_eq | reflexivity]).
Qed.

Lemma onTimer_handle_lost_witness :
  exists w',
    onTimer running_app
      (set_faults [false; false; false; false; false; true] stalled_world)
    = (Ok tt, w')
    /\ armed w'
       = [mkTimer 0%nat 1800 "Key rotation scheduled for 30 minutes";
          mkTimer 1%nat 300 RETRY_DESCRIPTION]
    /\ kv w' !! CONSTANTS.KEY_STORE.ROTATION_TIMER_KEY
       = Some (mkEntry (VTimer 1%nat) 1700000000 None).
Proof.
  destruct (onTimer_handle_lost running_app
              (set_faults [false; false; false; false; false; true] stalled_world)
              [] eq_refl eq_refl)
    as (w' & E & A & K & _).
  exists w'. split; [exact E|]. split; [exact A | exact K].
Defined.

(** X8: the failure path is not protected: when the wakeup fails before the
    new wakeup is armed and the [timers.set] of the retry is rejected too,
    the handler itself rejects, and no wakeup has been armed at all. *)
Theorem onTimer_retry_rejected (app : App) (w : World)
    (n : nat) (rest : list bool) :
  (n < 5)%nat ->
  faults w = rejectAt n (true :: rest) ->
  exists w',
    onTimer app w = (Thrown OpTimersSet, w')
    /\ armed w' = armed w
    /\ kv w' !! CONSTANTS.KEY_STORE.ROTATION_TIMER_KEY
       = kv w !! CONSTANTS.KEY_STORE.ROTATION_TIMER_KEY.
Proof.
  destruct w as [ms m ts nt sr ob e d ps fs]. cbn [faults armed kv].
  intros Hn ->.
  destruct n as [|[|[|[|[|n]]]]]; [| | | | |lia];
    cbn [rejectAt repeat List.app]; run;
    (eexists; split; [reflexivity|]); cbn [armed kv];
    (split; [reflexivity|]);
    unfold storeAfterGeneration, store_put;
    rewrite ?lookup_insert_ne by discriminate; reflexivity.
Qed.

Lemma onTimer_retry_rejected_witness :
  exists w',
    onTimer running_app (set_faults [true; true] stalled_world)
    = (Thrown OpTimersSet, w')
    /\ armed w' = [].
Proof.
  destruct (onTimer_retry_rejected running_app
              (set_faults [true; true] stalled_world) 0 [])
    as (w' & E & A & _).
  - lia.
  - reflexivity.
  - exists w'. split; [exact E | exact A].
Defined.
(** ** The reconciliation pass, continued *)

Lemma readLive_afterGeneration key config appUrl w :
  key <> CONSTANTS.KEY_STORE.CURRENT_TOKEN_KEY ->
  key <> keyName config (newKeyId w) ->
  readLive key (afterGeneration config appUrl w) = readLive key w.
Proof.
  intros H1 H2. unfold readLive.
  change (kv (afterGeneration config appUrl w))
    with (storeAfterGeneration config appUrl w).
  change (now_s (afterGeneration config appUrl w)) with (now_s w).
  unfold storeAfterGeneration, store_put.
  rewrite lookup_insert_ne by (apply not_eq_sym, H1).
  rewrite lookup_insert_ne by (apply not_eq_sym, H2). reflexivity.
Qed.

Lemma readLive_timer_afterGeneration config appUrl w :
  readLive CONSTANTS.KEY_STORE.ROTATION_TIMER_KEY
    (afterGeneration config appUrl (consume 1 w))
  = readLive CONSTANTS.KEY_STORE.ROTATION_TIMER_KEY w.
Proof.
  rewrite readLive_afterGeneration;
    [reflexivity | discriminate | apply not_eq_sym, keyName_not_timer].
Qed.

(** The regenerating pass, with what it found under [rotation_timer_id]. *)
Lemma onSync_regenerate_world (app : App) (w : World) (v : kv_value) :
  10 <= expirationMinutes (app_config app) ->
  calm 8 (faults w) = true ->
  readLive CONSTANTS.KEY_STORE.CURRENT_TOKEN_KEY w = Some v ->
  configHash_of v <> Some (hashConfig (app_config app)) ->
  onSync app w
  = (Ok (Ready (createSignalUpdates
                  (newToken (app_config app) (app_url app) (consume 1 w))
                  (app_url app) (keyring (app_config app)))),
     afterArming
       (calculateRotationInterval (expirationMinutes (app_config app)) * 60)
       ("Key rotation rescheduled after config change ("
          ++ minutes (calculateRotationInterval
                        (expirationMinutes (app_config app))) ++ ")")
       (afterUnset (readLive CONSTANTS.KEY_STORE.ROTATION_TIMER_KEY w)
          (consume 1 (afterGeneration (app_config app) (app_url app)
                        (consume 1 w))))).
Proof.
  intros Hv H Hread Hne.
  rewrite (onSync_regenerate app w Hv v H Hread Hne).
  unfold afterConfigChange. cbv zeta.
  rewrite readLive_timer_afterGeneration. reflexivity.
Qed.

(** X9: a pass that finds a token with another fingerprint regenerates: it
    publishes the new token with the keyring of the configuration, cancels
    the wakeup whose handle is stored and arms one at the new interval, so
    no armed wakeup carries the old handle any more. *)
Theorem onSync_regenerate_cancels (app : App) (w : World)
    (v : kv_value) (old : TimerId) :
  10 <= expirationMinutes (app_config app) ->
  calm 8 (faults w) = true ->
  readLive CONSTANTS.KEY_STORE.CURRENT_TOKEN_KEY w = Some v ->
  configHash_of v <> Some (hashConfig (app_config app)) ->
  readLive CONSTANTS.KEY_STORE.ROTATION_TIMER_KEY w = Some (VTimer old) ->
  exists updates w' tokenData,
    onSync app w = (Ok (Ready updates), w')
    /\ su_keyring updates = keyring (app_config app)
    /\ su_token updates = token tokenData
    /\ configHash tokenData = hashConfig (app_config app)
    /\ kv w' !! CONSTANTS.KEY_STORE.CURRENT_TOKEN_KEY
       = Some (mkEntry (VToken tokenData) (now_s w) None)
    /\ armed w'
       = (List.filter (fun t => negb (Nat.eqb (timer_id t) old)) (armed w)
          ++ [mkTimer (next_timer w)
                (calculateRotationInterval (expirationMinutes (app_config app)) * 60)
                ("Key rotation rescheduled after config change ("
                   ++ minutes (calculateRotationInterval
                                 (expirationMinutes (app_config app))) ++ ")")])%list
    /\ kv w' !! CONSTANTS.KEY_STORE.ROTATION_TIMER_KEY
       = Some (mkEntry (VTimer (next_timer w)) (now_s w) None)
    /\ (old < next_timer w -> forall t, In t (armed w') -> timer_id t <> old)%nat.
Proof.
  intros Hv H Hread Hne Hold.
  eexists _, _, (newToken (app_config app) (app_url app) (consume 1 w)).
  split; [apply (onSync_regenerate_world app w v Hv H Hread Hne)|].
  rewrite Hold.
  destruct w as [ms m ts nt sr ob e d ps fs].
  split; [reflexivity|]. split; [reflexivity|]. split; [reflexivity|].
  split.
  { cbn [afterArming afterUnset set_kv kv]. unfold store_put.
    rewrite lookup_insert_ne by discriminate.
    cbn [consume set_timers set_faults kv afterGeneration set_kv].
    unfold storeAfterGeneration, store_put. apply lookup_insert_eq. }
  split; [reflexivity|].
  split; [apply lookup_insert_eq|].
  cbn [armed afterArming afterUnset set_kv set_timers consume set_faults
       afterGeneration set_drawn next_timer].
  intros Hlt t Hin. apply in_app_or in Hin as [Hin|[<-|[]]].
  - apply filter_In in Hin as [_ Hin]. apply negb_true_iff in Hin.
    apply Nat.eqb_neq in Hin. exact Hin.
  - cbn [timer_id]. lia.
Qed.

Lemma onSync_regenerate_cancels_witness :
  exists updates w',
    onSync rekeyed_app settled_world = (Ok (Ready updates), w')
    /\ su_keyring updates = Some "v2"
    /\ armed settled_world
       = [mkTimer 0%nat 1800 "Initial key rotation scheduled for 30 minutes"]
    /\ armed w'
       = [mkTimer 1%nat 1800
            "Key rotation rescheduled after config change (30 minutes)"].
Proof.
  destruct (onSync_regenerate_cancels rekeyed_app settled_world
              (VToken (newToken (app_config unkeyed_app) sample_url
                         (sample_world ∅ [])))
              0%nat)
    as (updates & w' & tokenData & E & K & _ & _ & _ & A & _).
  - vm_compute. discriminate.
  - reflexivity.
  - vm_compute. reflexivity.
  - vm_compute. discriminate.
  - vm_compute. reflexivity.
  - exists updates, w'. split; [exact E|]. split; [exact K|].
    split; [vm_compute; reflexivity | exact A].
Defined.

(** X10: when the regenerating pass finds no handle under
    [rotation_timer_id], it cancels nothing: the wakeups armed before stay
    armed and the new one is added to them. *)
Theorem onSync_regenerate_without_handle (app : App) (w : World) (v : kv_value) :
  10 <= expirationMinutes (app_config app) ->
  calm 8 (faults w) = true ->
  readLive CONSTANTS.KEY_STORE.CURRENT_TOKEN_KEY w = Some v ->
  configHash_of v <> Some (hashConfig (app_config app)) ->
  readLive CONSTANTS.KEY_STORE.ROTATION_TIMER_KEY w = None ->
  exists updates w',
    onSync app w = (Ok (Ready updates), w')
    /\ su_keyring updates = keyring (app_config app)
    /\ armed w'
       = (armed w
          ++ [mkTimer (next_timer w)
                (calculateRotationInterval (expirationMinutes (app_config app)) * 60)
                ("Key rotation rescheduled after config change ("
                   ++ minutes (calculateRotationInterval
                                 (expirationMinutes (app_config app))) ++ ")")])%list
    /\ kv w' !! CONSTANTS.KEY_STORE.ROTATION_TIMER_KEY
       = Some (mkEntry (VTimer (next_timer w)) (now_s w) None).
Proof.
  intros Hv H Hread Hne Hnone.
  eexists _, _.
  split; [apply (onSync_regenerate_world app w v Hv H Hread Hne)|].
  rewrite Hnone.
  destruct w as [ms m ts nt sr ob e d ps fs].
  split; [reflexivity|]. split; [reflexivity|]. apply lookup_insert_eq.
Qed.

Lemma onSync_regenerate_without_handle_witness :
  exists updates w',
    onSync (mkApp (mkConfig 60 None None (Some "v3")) sample_url no_signals)
           stalled_world
    = (Ok (Ready updates), w')
    /\ su_keyring updates = Some "v3"
    /\ armed w'
       = [mkTimer 0%nat 1800
            "Key rotation rescheduled after config change (30 minutes)"].
Proof.
  destruct (onSync_regenerate_without_handle
              (mkApp (mkConfig 60 None None (Some "v3")) sample_url no_signals)
              stalled_world (VToken stalled_token))
    as (updates & w' & E & K & A & _).
  - vm_compute. discriminate.
  - reflexivity.
  - vm_compute. reflexivity.
  - vm_compute. discriminate.
  - vm_compute. reflexivity.
  - exists updates, w'. split; [exact E|]. split; [exact K | exact A].
Defined.

(** X11: the first pass of a deployment (no token stored, no call rejected)
    ends ready: it publishes a token that expires [expirationMinutes * 60]
    seconds from now with the origin of the app URL as issuer and the
    keyring of the configuration, stores the token, arms one rotation
    wakeup at [calculateRotationInterval] minutes and stores its handle. *)
Theorem onSync_bootstrap_effects (app : App) (w : World) :
  10 <= expirationMinutes (app_config app) ->
  calm 6 (faults w) = true ->
  readLive CONSTANTS.KEY_STORE.CURRENT_TOKEN_KEY w = None ->
  exists updates w' tokenData,
    onSync app w = (Ok (Ready updates), w')
    /\ su_token updates = token tokenData
    /\ su_expiresAt updates = now_s w + expirationMinutes (app_config app) * 60
    /\ su_issuer updates = origin (app_url app)
    /\ su_keyring updates = keyring (app_config app)
    /\ kv w' !! CONSTANTS.KEY_STORE.CURRENT_TOKEN_KEY
       = Some (mkEntry (VToken tokenData) (now_s w) None)
    /\ configHash tokenData = hashConfig (app_config app)
    /\ armed w'
       = (armed w
          ++ [mkTimer (next_timer w)
                (calculateRotationInterval (expirationMinutes (app_config app)) * 60)
                ("Initial key rotation scheduled for "
                   ++ minutes (calculateRotationInterval
                                 (expirationMinutes (app_config app))))])%list
    /\ kv w' !! CONSTANTS.KEY_STORE.ROTATION_TIMER_KEY
       = Some (mkEntry (VTimer (next_timer w)) (now_s w) None).
Proof.
  intros Hv H Hread.
  eexists _, _, (newToken (app_config app) (app_url app) (consume 1 w)).
  split; [apply (onSync_bootstrap app w Hv H Hread)|].
  destruct w as [ms m ts nt sr ob e d ps fs].
  split; [reflexivity|]. split; [reflexivity|]. split; [reflexivity|].
  split; [reflexivity|].
  split.
  { cbn [afterInitialSetup afterArming set_kv kv]. unfold store_put.
    rewrite lookup_insert_ne by discriminate.
    cbn [afterGeneration set_kv kv]. unfold storeAfterGeneration, store_put.
    apply lookup_insert_eq. }
  split; [reflexivity|]. split; [reflexivity|]. apply lookup_insert_eq.
Qed.

Lemma onSync_bootstrap_effects_witness :
  exists updates w',
    onSync (mkApp (mkConfig 120 None None (Some "default")) sample_url no_signals)
           (sample_world ∅ [])
    = (Ok (Ready updates), w')
    /\ su_expiresAt updates = 1700000000 + 7200
    /\ su_keyring updates = Some "default"
    /\ armed w'
       = [mkTimer 0%nat 3600 "Initial key rotation scheduled for 60 minutes"].
Proof.
  destruct (onSync_bootstrap_effects
              (mkApp (mkConfig 120 None None (Some "default")) sample_url no_signals)
              (sample_world ∅ []))
    as (updates & w' & tokenData & E & _ & X & _ & K & _ & _ & A & _).
  - vm_compute. discriminate.
  - reflexivity.
  - reflexivity.
  - exists updates, w'. split; [exact E|]. split; [exact X|].
    split; [exact K | exact A].
Defined.

(** X12: a pass that needs a new token and has the read of the token, the
    key generation, the signing or the [kv.app.setMany] rejected ends
    failed with the generic sync error; nothing is stored, armed or
    published. *)
Theorem onSync_failure_keeps_store (app : App) (w : World)
    (n : nat) (rest : list bool) :
  10 <= expirationMinutes (app_config app) ->
  (n < 4)%nat ->
  faults w = rejectAt n rest ->
  (forall tokenData,
     readLive CONSTANTS.KEY_STORE.CURRENT_TOKEN_KEY w = Some (VToken tokenData) ->
     configHash tokenData <> hashConfig (app_config app)) ->
  exists w',
    onSync app w = (Ok (Failed SYNC_ERROR), w')
    /\ kv w' = kv w
    /\ armed w' = armed w
    /\ sync_requests w' = sync_requests w
    /\ faults w' = rest.
Proof.
  intros Hv Hn Hf Hstale. unfold onSync, try_catch.
  apply Z.ltb_ge in Hv. rewrite Hv.
  destruct n as [|n].
  - unfold kv_get.
    rewrite (bind_thrown _ _ _ _ _
               (bind_thrown _ _ _ _ _ (fallible_rejected OpKvGet w rest Hf))).
    eexists. split; [reflexivity|]. destruct w; repeat split.
  - assert (H1 : calm 1 (faults w) = true) by (rewrite Hf; reflexivity).
    rewrite (bind_ok _ _ _ _ _ (kv_get_ok _ _ H1)).
    assert (Hf' : faults (consume 1 w) = rejectAt n rest)
      by (rewrite faults_consume, Hf; reflexivity).
    destruct (generateKeyAndToken_rejected (app_config app) (app_url app)
                (consume 1 w) n rest ltac:(lia) Hf') as (e & E & _).
    assert (G : forall B (k : TokenData -> M B),
                bind (generateKeyAndToken (app_config app) (app_url app)) k
                     (consume 1 w)
                = (Thrown e,
                   set_faults rest
                     (set_drawn (drawn (consume 1 w) + Nat.min 3 (S (2 * n)))
                        (consume 1 w))))
      by (intros B k; apply bind_thrown, E).
    assert (Done : forall r : Outcome (TokenData * option string) * World,
              r = (Thrown e,
                   set_faults rest
                     (set_drawn (drawn (consume 1 w) + Nat.min 3 (S (2 * n)))
                        (consume 1 w))) ->
              exists w',
                (let (o, w'0) :=
                   (let (o, w'0) := r in
                    match o with
                    | Ok a =>
                        ret (Ready (createSignalUpdates (fst a) (app_url app) (snd a)))
                          w'0
                    | Thrown e0 => (Thrown e0, w'0)
                    end) in
                 match o with
                 | Ok a => (Ok a, w'0)
                 | Thrown _ => ret (Failed SYNC_ERROR) w'0
                 end) = (Ok (Failed SYNC_ERROR), w')
                /\ kv w' = kv w /\ armed w' = armed w
                /\ sync_requests w' = sync_requests w /\ faults w' = rest).
    { intros r ->. eexists. split; [reflexivity|]. destruct w; repeat split. }
    unfold bind at 1.
    destruct (readLive CONSTANTS.KEY_STORE.CURRENT_TOKEN_KEY w)
      as [[jwk|tokenData|id]|] eqn:Hread.
    + apply Done. unfold handleConfigChange. apply G.
    + destruct (String.eqb_spec (configHash tokenData) (hashConfig (app_config app)))
        as [Heq|_]; [destruct (Hstale tokenData eq_refl Heq)|].
      cbn [negb]. apply Done. unfold handleConfigChange. apply G.
    + apply Done. unfold handleConfigChange. apply G.
    + apply Done. unfold handleInitialSetup. apply G.
Qed.

Lemma onSync_failure_keeps_store_witness :
  exists w',
    onSync unkeyed_app (sample_world ∅ [false; false; true])
    = (Ok (Failed SYNC_ERROR), w')
    /\ kv w' = ∅
    /\ armed w' = [].
Proof.
  destruct (onSync_failure_keeps_store unkeyed_app
              (sample_world ∅ [false; false; true]) 2 [])
    as (w' & E & K & A & _).
  - vm_compute. discriminate.
  - lia.
  - reflexivity.
  - intros tokenData Hread. vm_compute in Hread. discriminate Hread.
  - exists w'. split; [exact E|]. split; [exact K | exact A].
Defined.

(** X13: when the first pass has stored key and token and then has its
    [timers.set] rejected, it ends failed; the next pass with the same
    configuration finds the token, reuses it and ends ready, and no
    rotation wakeup is armed by either pass. *)
Theorem onSync_after_failed_arming (app : App) (w : World) (rest : list bool) :
  10 <= expirationMinutes (app_config app) ->
  readLive CONSTANTS.KEY_STORE.CURRENT_TOKEN_KEY w = None ->
  faults w = rejectAt 4 rest ->
  calm 1 rest = true ->
  exists w1 updates w2,
    onSync app w = (Ok (Failed SYNC_ERROR), w1)
    /\ onSync app w1 = (Ok (Ready updates), w2)
    /\ kv w1 !! CONSTANTS.KEY_STORE.CURRENT_TOKEN_KEY
       = Some (mkEntry (VToken (mkTokenData (su_token updates)
                                  (su_expiresAt updates)
                                  (hashConfig (app_config app))))
                 (now_s w) None)
    /\ armed w2 = armed w
    /\ kv w2 !! CONSTANTS.KEY_STORE.ROTATION_TIMER_KEY
       = kv w !! CONSTANTS.KEY_STORE.ROTATION_TIMER_KEY.
Proof.
  intros Hv Hread Hf Hrest.
  assert (H4 : calm 4 (faults w) = true) by (rewrite Hf; reflexivity).
  set (w0 := afterGeneration (app_config app) (app_url app) (consume 1 w)).
  assert (First : onSync app w = (Ok (Failed SYNC_ERROR), set_faults rest w0)).
  { unfold onSync, try_catch.
    pose proof Hv as Hv'. apply Z.ltb_ge in Hv'. rewrite Hv'.
    rewrite (bind_ok _ _ _ _ _ (kv_get_ok _ _ (calm_le 1 4 _ ltac:(lia) H4))).
    rewrite Hread.
    assert (F0 : faults w0 = true :: rest)
      by (subst w0; rewrite faults_afterGeneration, faults_consume, Hf; reflexivity).
    assert (Setup : handleInitialSetup (app_config app) (app_url app)
                      (keyring (app_config app)) (consume 1 w)
                    = (Thrown OpTimersSet, set_faults rest w0)).
    { unfold handleInitialSetup.
      rewrite (bind_ok _ _ _ _ _
                 (generateKeyAndToken_ok (app_config app) (app_url app) (consume 1 w)
                    (calm_skipn 1 3 _ H4))).
      fold w0. unfold timers_set.
      rewrite (bind_thrown _ _ _ _ _
                 (bind_thrown _ _ _ _ _ (fallible_rejected OpTimersSet w0 rest F0))).
      reflexivity. }
    rewrite (bind_thrown _ _ _ _ _ Setup). reflexivity. }
  assert (Stored : kv (set_faults rest w0) !! CONSTANTS.KEY_STORE.CURRENT_TOKEN_KEY
                   = Some (mkEntry (VToken (newToken (app_config app) (app_url app)
                                              (consume 1 w)))
                             (now_s w) None))
    by (exact (token_afterGeneration (app_config app) (app_url app) (consume 1 w))).
  exists (set_faults rest w0). eexists _, _.
  split; [exact First|].
  split.
  { apply (onSync_reuse app (set_faults rest w0) Hv
             (newToken (app_config app) (app_url app) (consume 1 w)));
      [exact Hrest | unfold readLive; rewrite Stored; reflexivity | reflexivity]. }
  split; [exact Stored|].
  split; [destruct w; reflexivity|].
  change (kv (consume 1 (set_faults rest w0)))
    with (storeAfterGeneration (app_config app) (app_url app) (consume 1 w)).
  unfold storeAfterGeneration, store_put.
  rewrite lookup_insert_ne by discriminate.
  rewrite lookup_insert_ne by (apply keyName_not_timer). reflexivity.
Qed.

Lemma onSync_after_failed_arming_witness :
  exists updates w2,
    onSync stalled_app (sample_world ∅ [false; false; false; false; true])
    = (Ok (Failed SYNC_ERROR), stalled_world)
    /\ onSync stalled_app stalled_world = (Ok (Ready updates), w2)
    /\ armed w2 = []
    /\ kv w2 !! CONSTANTS.KEY_STORE.ROTATION_TIMER_KEY = None.
Proof.
  destruct (onSync_after_failed_arming stalled_app
              (sample_world ∅ [false; false; false; false; true]) [])
    as (w1 & updates & w2 & E1 & E2 & _ & A & K).
  - vm_compute. discriminate.
  - reflexivity.
  - reflexivity.
  - reflexivity.
  - assert (W : w1 = stalled_world)
      by (unfold stalled_world; rewrite E1; reflexivity).
    rewrite W in *.
    exists updates, w2. split; [exact E1|]. split; [exact E2|].
    split; [exact A | exact K].
Defined.

(** X14: two passes in a row under one configuration, no call rejected:
    whatever the first pass did (bootstrap, regenerate or reuse), the second
    publishes the same token, expiry, issuer and keyring and changes neither
    the store nor the timers. *)
Theorem reconcile_twice (app : App) (w : World) :
  10 <= expirationMinutes (app_config app) ->
  calm 9 (faults w) = true ->
  exists updates w1 w2,
    onSync app w = (Ok (Ready updates), w1)
    /\ onSync (publish (Ready updates) app) w1 = (Ok (Ready updates), w2)
    /\ kv w2 = kv w1
    /\ armed w2 = armed w1
    /\ sync_requests w2 = sync_requests w1.
Proof.
  intros Hv H.
  destruct (onSync_twice app w Hv H) as (updates & w1 & E1 & E2).
  exists updates, w1, (consume 1 w1).
  split; [exact E1|]. split; [exact E2|]. repeat split.
Qed.

Lemma reconcile_twice_witness :
  exists updates w1 w2,
    onSync unkeyed_app (sample_world ∅ []) = (Ok (Ready updates), w1)
    /\ onSync (publish (Ready updates) unkeyed_app) w1 = (Ok (Ready updates), w2)
    /\ armed w2 = armed w1.
Proof.
  destruct (reconcile_twice unkeyed_app (sample_world ∅ []))
    as (updates & w1 & w2 & E1 & E2 & _ & A & _).
  - vm_compute. discriminate.
  - reflexivity.
  - exists updates, w1, w2. split; [exact E1|]. split; [exact E2 | exact A].
Defined.
(** ** The HTTP handlers, continued *)

Lemma In_liveUnder keyPrefix w key e :
  In (key, e) (liveUnder keyPrefix w)
  <-> kv w !! key = Some e
      /\ String.prefix keyPrefix key = true
      /\ live (now_s w) e = true.
Proof.
  unfold liveUnder. rewrite filter_In. cbn [fst snd].
  rewrite andb_true_iff, <- list_elem_of_In, elem_of_map_to_list. tauto.
Qed.

Lemma map_fst_fmap (l : list (string * kv_entry)) : map fst l = l.*1.
Proof. induction l as [|p l IH]; simpl; [reflexivity | f_equal; exact IH]. Qed.

(** X15: with a keyring signal and no call rejected, the JWKS handler
    answers 200 with one entry for each live record whose name starts with
    the prefix of the signalled keyring, and with nothing else: expired
    records and records outside the prefix are not served, and the loop
    reads on until the last page. *)
Theorem jwks_serves_live_keys (requestId : string) (app : App) (w : World)
    (c : ascii) (s : string) :
  sig_keyring (app_signals app) = Some (String c s) ->
  faults w = [] ->
  exists records,
    handleJWKs requestId app w
    = (Ok tt,
       set_outbox
         (outbox w ++
          [(requestId,
            mkResponse 200 CONSTANTS.JWKS_RESPONSE_HEADERS
              (JObj [("keys",
                      JArr (map (fun p => publicJwk (kv_value_of (snd p)))
                              records))]))]) w)
    /\ NoDup (map fst records)
    /\ forall key e,
         In (key, e) records
         <-> kv w !! key = Some e
             /\ String.prefix ("key:" ++ String c s ++ ":") key = true
             /\ live (now_s w) e = true.
Proof.
  intros Hs Hq.
  exists (liveUnder (CONSTANTS.KEY_STORE.getKeyPrefix (String c s)) w).
  split; [apply (handleJWKs_serves_keyring requestId app w c s Hs Hq)|].
  split.
  - rewrite map_fst_fmap. apply NoDup_liveUnder.
  - intros key e. apply In_liveUnder.
Qed.

Lemma jwks_serves_live_keys_witness :
  exists records,
    handleJWKs "req-1" rekeyed_app settled_world
    = (Ok tt,
       set_outbox
         [("req-1",
           mkResponse 200 CONSTANTS.JWKS_RESPONSE_HEADERS
             (JObj [("keys",
                     JArr (map (fun p => publicJwk (kv_value_of (snd p)))
                             records))]))] settled_world)
    /\ exists e, In ("key:default:uuid-0", e) records.
Proof.
  destruct (jwks_serves_live_keys "req-1" rekeyed_app settled_world "d" "efault")
    as (records & E & _ & M).
  - reflexivity.
  - reflexivity.
  - exists records. split; [exact E|].
    eexists. apply M. split; [vm_compute; reflexivity|].
    split; vm_compute; reflexivity.
Defined.

(** Reading the store changes nothing but the fault schedule. *)
Lemma fallible_frame op w o w' :
  fallible op w = (o, w') -> w' = set_faults (faults w') w.
Proof.
  unfold fallible. destruct w as [ms m ts nt sr ob e d ps fs]. cbn [faults].
  destruct fs as [|[] fs]; intros [= <- <-]; reflexivity.
Qed.

Lemma kv_list_frame keyPrefix startingKey w o w' :
  kv_list keyPrefix startingKey w = (o, w') -> w' = set_faults (faults w') w.
Proof.
  unfold kv_list, bind.
  destruct (fallible OpKvList w) as [[[]|e] w1] eqn:F;
    apply fallible_frame in F; unfold gets; intros [= <- <-]; exact F.
Qed.

Lemma set_faults_twice f1 f2 w :
  set_faults f2 (set_faults f1 w) = set_faults f2 w.
Proof. reflexivity. Qed.

Lemma jwksPages_frame keyPrefix : forall fuel startingKey pubKeys w o w',
  jwksPages fuel keyPrefix startingKey pubKeys w = (o, w') ->
  w' = set_faults (faults w') w.
Proof.
  induction fuel as [|fuel IH]; intros startingKey pubKeys w o w'.
  - cbn [jwksPages]. unfold ret. intros [= <- <-]. destruct w; reflexivity.
  - cbn [jwksPages]. unfold bind at 1.
    destruct (kv_list keyPrefix startingKey w) as [[page|e] w1] eqn:L;
      apply kv_list_frame in L.
    + destruct (js_not (snd page)).
      * unfold ret. intros [= <- <-]. exact L.
      * intros R. apply IH in R. rewrite R, L at 1. reflexivity.
    + intros [= <- <-]. exact L.
Qed.

(** X16: every request is answered exactly once, with status 200, 404 or
    500, whatever call is rejected on the way; a request changes neither the
    store nor the timers, and a path other than the two served ones gets
    404. *)
Theorem onRequest_answers_once (path requestId : string) (app : App) (w : World) :
  exists response w',
    onRequest path requestId app w = (Ok tt, w')
    /\ outbox w' = (outbox w ++ [(requestId, response)])%list
    /\ kv w' = kv w
    /\ armed w' = armed w
    /\ sync_requests w' = sync_requests w
    /\ In (statusCode response) [200; 404; 500]
    /\ (path <> "/.well-known/openid-configuration" -> path <> "/jwks" ->
        statusCode response = 404).
Proof.
  unfold onRequest, try_catch.
  destruct (String.eqb_spec path "/.well-known/openid-configuration") as [->|N1].
  { eexists _, _. split; [reflexivity|]. destruct w.
    repeat split; [cbn; tauto | congruence]. }
  destruct (String.eqb_spec path "/jwks") as [->|N2].
  2:{ eexists _, _. split; [reflexivity|]. destruct w.
      repeat split; cbn; tauto. }
  unfold handleJWKs.
  destruct (js_not (sig_keyring (app_signals app))).
  { eexists _, _. split; [reflexivity|]. destruct w.
    repeat split; [cbn; tauto | congruence]. }
  unfold bind at 1. unfold gets at 1. unfold bind at 1.
  match goal with
  | |- context [jwksPages ?f ?p ?s ?a w] =>
      destruct (jwksPages f p s a w) as [[pubKeys|e] w1] eqn:P;
      apply jwksPages_frame in P
  end.
  - eexists _, _. split; [reflexivity|]. rewrite P. destruct w.
    repeat split; [cbn; tauto | congruence].
  - eexists _, _. split; [reflexivity|]. rewrite P. destruct w.
    repeat split; [cbn; tauto | congruence].
Qed.
(** ** Keyrings and key names *)

Lemma prefix_app (a b : string) : String.prefix a (a ++ b) = true.
Proof.
  induction a as [|c a IH]; [destruct b; reflexivity|]. simpl.
  destruct (ascii_dec c c); [exact IH | congruence].
Qed.

Lemma prefix_app_cancel (a b c : string) :
  String.prefix (a ++ b) (a ++ c) = String.prefix b c.
Proof.
  induction a as [|x a IH]; [reflexivity|]. simpl.
  destruct (ascii_dec x x); [exact IH | congruence].
Qed.

Lemma append_assoc (a b c : string) : (a ++ b) ++ c = a ++ (b ++ c).
Proof.
  induction a as [|x a IH]; [reflexivity|].
  change (String x ((a ++ b) ++ c) = String x (a ++ (b ++ c))).
  rewrite IH. reflexivity.
Qed.

Lemma prefix_colon_free (k1 : string) : forall k2 rest,
  no_colon k1 = true -> no_colon k2 = true ->
  String.prefix (k1 ++ ":") (k2 ++ String ":" rest) = true ->
  k1 = k2.
Proof.
  induction k1 as [|a k1 IH]; intros [|b k2] rest H1 H2 Hp;
    cbv [append] in Hp; fold append in Hp; cbn [String.prefix no_colon] in *.
  - reflexivity.
  - destruct (ascii_dec ":" b) as [<-|]; [|discriminate Hp].
    discriminate H2.
  - destruct (ascii_dec a ":") as [->|]; [|discriminate Hp].
    discriminate H1.
  - destruct (ascii_dec a b) as [->|]; [|discriminate Hp].
    apply andb_prop in H1 as [_ H1]. apply andb_prop in H2 as [_ H2].
    f_equal. apply (IH k2 rest H1 H2 Hp).
Qed.

Lemma keyName_prefix (config : AppConfig) (newKeyId k : string) :
  String.prefix (CONSTANTS.KEY_STORE.getKeyPrefix k) (keyName config newKeyId)
  = String.prefix (k ++ ":")
      (js_or (keyring config) id "default" ++ String ":" newKeyId).
Proof.
  unfold keyName, CONSTANTS.KEY_STORE.getKeyPrefix.
  rewrite (append_assoc "key:"). rewrite prefix_app_cancel.
  rewrite append_assoc. reflexivity.
Qed.

(** X17: keyrings whose names hold no colon are kept apart: the name under
    which [generateKeyAndToken] stores a key starts with the JWKS prefix of
    a keyring exactly when the key was generated for that keyring (the
    configured one, or [default] when none or an empty one is configured). *)
Theorem keyring_isolation (config : AppConfig) (newKeyId k : string) :
  no_colon k = true ->
  no_colon (js_or (keyring config) id "default") = true ->
  (String.prefix (CONSTANTS.KEY_STORE.getKeyPrefix k) (keyName config newKeyId) = true
   <-> js_or (keyring config) id "default" = k).
Proof.
  intros H1 H2. rewrite keyName_prefix. split.
  - intros Hp. symmetry. apply (prefix_colon_free k _ newKeyId H1 H2 Hp).
  - intros <-.
    change (String ":" newKeyId) with (":" ++ newKeyId).
    rewrite <- append_assoc. apply prefix_app.
Qed.

Lemma keyring_isolation_witness :
  String.prefix (CONSTANTS.KEY_STORE.getKeyPrefix "v2")
    (keyName (mkConfig 60 None None None) "uuid-0") = false
  /\ String.prefix (CONSTANTS.KEY_STORE.getKeyPrefix "default")
       (keyName (mkConfig 60 None None None) "uuid-0") = true.
Proof.
  split.
  - destruct (String.prefix (CONSTANTS.KEY_STORE.getKeyPrefix "v2")
                (keyName (mkConfig 60 None None None) "uuid-0")) eqn:E;
      [|reflexivity].
    apply (keyring_isolation (mkConfig 60 None None None) "uuid-0" "v2"
             eq_refl eq_refl) in E.
    discriminate E.
  - apply (keyring_isolation (mkConfig 60 None None None) "uuid-0" "default"
             eq_refl eq_refl).
    reflexivity.
Defined.

(** X18: a colon in a keyring name breaks the separation: a key generated
    for the keyring [k:s] has a name that starts with the JWKS prefix of the
    keyring [k], so the JWKS handler serves it when the signalled keyring
    is [k]. *)
Theorem jwks_serves_nested_keyring (requestId : string) (app : App) (w : World)
    (config : AppConfig) (c : ascii) (k s newKeyId : string) (e : kv_entry) :
  sig_keyring (app_signals app) = Some (String c k) ->
  faults w = [] ->
  keyring config = Some (String c (k ++ ":" ++ s)) ->
  kv w !! keyName config newKeyId = Some e ->
  live (now_s w) e = true ->
  exists keys,
    handleJWKs requestId app w
    = (Ok tt,
       set_outbox
         (outbox w ++
          [(requestId,
            mkResponse 200 CONSTANTS.JWKS_RESPONSE_HEADERS
              (JObj [("keys", JArr keys)]))]) w)
    /\ In (publicJwk (kv_value_of e)) keys.
Proof.
  intros Hs Hq Hk He Hl. eexists.
  split; [apply (handleJWKs_serves_keyring requestId app w c k Hs Hq)|].
  apply (in_map servedJwk _ (keyName config newKeyId, e)).
  apply In_liveUnder. split; [exact He|]. split; [|exact Hl].
  rewrite keyName_prefix, Hk. cbn [js_or id].
  replace (String c (k ++ ":" ++ s) ++ String ":" newKeyId)
    with ((String c k ++ ":") ++ (s ++ String ":" newKeyId));
    [apply prefix_app|].
  change (String c (k ++ ":" ++ s)) with (String c k ++ (":" ++ s)).
  rewrite <- (append_assoc (String c k) ":" s).
  rewrite (append_assoc (String c k ++ ":") s). reflexivity.
Qed.

Lemma jwks_serves_nested_keyring_witness :
  exists keys,
    handleJWKs "req-1"
      (mkApp nested_config sample_url (mkSignals None None None (Some "prod")))
      nested_world
    = (Ok tt,
       set_outbox
         [("req-1",
           mkResponse 200 CONSTANTS.JWKS_RESPONSE_HEADERS
             (JObj [("keys", JArr keys)]))] nested_world)
    /\ In (publicJwk (VKey [("kty", JStr "RSA"); ("n", JStr "1")])) keys.
Proof.
  destruct (jwks_serves_nested_keyring "req-1"
              (mkApp nested_config sample_url
                     (mkSignals None None None (Some "prod")))
              nested_world nested_config "p" "rod" "2024" "uuid-0"
              (newKeyEntry nested_config (sample_world ∅ [])))
    as (keys & E & K).
  - reflexivity.
  - reflexivity.
  - reflexivity.
  - vm_compute. reflexivity.
  - vm_compute. reflexivity.
  - exists keys. split; [exact E | exact K].
Defined.

(** X19: after a first pass with a non-empty keyring configured and no call
    rejected, a JWKS request made with the published signals is answered
    with a key set that holds the public key just generated. *)
Theorem jwks_after_bootstrap (requestId : string) (app : App) (w : World)
    (c : ascii) (k : string) :
  10 <= expirationMinutes (app_config app) ->
  faults w = [] ->
  readLive CONSTANTS.KEY_STORE.CURRENT_TOKEN_KEY w = None ->
  keyring (app_config app) = Some (String c k) ->
  exists updates w' keys,
    onSync app w = (Ok (Ready updates), w')
    /\ handleJWKs requestId (publish (Ready updates) app) w'
       = (Ok tt,
          set_outbox
            (outbox w' ++
             [(requestId,
               mkResponse 200 CONSTANTS.JWKS_RESPONSE_HEADERS
                 (JObj [("keys", JArr keys)]))]) w')
    /\ In (publicJwk (VKey (snd (newKeyPair w)))) keys.
Proof.
  intros Hv Hq Hread Hk.
  assert (H6 : calm 6 (faults w) = true) by (rewrite Hq; reflexivity).
  eexists _, _, _.
  split; [apply (onSync_bootstrap app w Hv H6 Hread)|].
  set (w' := afterInitialSetup (app_config app) (app_url app) (consume 1 w)).
  assert (Hq' : faults w' = []).
  { subst w'. destruct w as [ms m ts nt sr ob e d ps fs].
    cbn [faults] in Hq. subst fs. reflexivity. }
  split.
  - apply (handleJWKs_serves_keyring requestId _ w' c k); [exact Hk | exact Hq'].
  - apply (in_map servedJwk _
             (keyName (app_config app) (newKeyId w), newKeyEntry (app_config app) w)).
    apply In_liveUnder. split; [|split].
    + subst w'. destruct w as [ms m ts nt sr ob e d ps fs].
      cbn [afterInitialSetup afterArming afterGeneration set_kv kv].
      unfold storeAfterGeneration, store_put.
      rewrite lookup_insert_ne by (apply not_eq_sym, keyName_not_timer).
      rewrite lookup_insert_ne by (apply not_eq_sym, keyName_not_token).
      apply lookup_insert_eq.
    + rewrite keyName_prefix, Hk. cbn [js_or id].
      change (String ":" (newKeyId w)) with (":" ++ newKeyId w).
      rewrite <- append_assoc. apply prefix_app.
    + unfold live, newKeyEntry, keyTtlSeconds, CONSTANTS.KEY_GRACE_PERIOD_MINUTES.
      cbn [kv_expiresAt]. apply Z.ltb_lt.
      change (now_s (afterInitialSetup (app_config app) (app_url app) (consume 1 w)))
        with (now_s w).
      lia.
Qed.

Lemma jwks_after_bootstrap_witness :
  exists updates w' keys,
    onSync stalled_app (sample_world ∅ []) = (Ok (Ready updates), w')
    /\ handleJWKs "req-1" (publish (Ready updates) stalled_app) w'
       = (Ok tt,
          set_outbox
            (outbox w' ++
             [("req-1",
               mkResponse 200 CONSTANTS.JWKS_RESPONSE_HEADERS
                 (JObj [("keys", JArr keys)]))]) w')
    /\ In (JObj [("kty", JStr "RSA"); ("n", JStr "1");
                 ("alg", JStr "RS256"); ("use", JStr "sig")]) keys.
Proof.
  destruct (jwks_after_bootstrap "req-1" stalled_app (sample_world ∅ []) "v" "2")
    as (updates & w' & keys & E & J & K).
  - vm_compute. discriminate.
  - reflexivity.
  - reflexivity.
  - reflexivity.
  - exists updates, w', keys. split; [exact E|]. split; [exact J | exact K].
Defined.
(** ** Errors of the JWKS request, served keys, rotation timing *)

(** X20: when the first [kv.app.list] of a JWKS request is rejected, the
    request is answered with 500 and the error body; no key is sent. *)
Theorem jwks_listing_rejected (requestId : string) (app : App) (w : World)
    (c : ascii) (s : string) (rest : list bool) :
  sig_keyring (app_signals app) = Some (String c s) ->
  faults w = true :: rest ->
  onRequest "/jwks" requestId app w
  = (Ok tt,
     set_outbox (outbox w ++ [(requestId, SERVER_ERROR)]) (set_faults rest w)).
Proof.
  intros Hs Hf. unfold onRequest, try_catch.
  cbn [String.eqb Ascii.eqb Bool.eqb]. unfold handleJWKs. rewrite Hs.
  cbn [js_not default].
  rewrite (bind_ok (gets (fun w => size (kv w))) _ w (size (kv w)) w eq_refl).
  cbn [jwksPages]. unfold kv_list.
  rewrite (bind_thrown _ _ _ _ _
             (bind_thrown _ _ _ _ _
                (bind_thrown _ _ _ _ _ (fallible_rejected OpKvList w rest Hf)))).
  reflexivity.
Qed.

Lemma jwks_listing_rejected_witness :
  onRequest "/jwks" "req-1" rekeyed_app (set_faults [true] settled_world)
  = (Ok tt, set_outbox [("req-1", SERVER_ERROR)] settled_world).
Proof.
  exact (jwks_listing_rejected "req-1" rekeyed_app
           (set_faults [true] settled_world) "d" "efault" [] eq_refl eq_refl).
Defined.

(** X21: every key the JWKS handler serves is tagged [alg = RS256] and
    [use = sig], whatever the stored JWK says for these two members; the
    other members of the stored JWK are served as stored. *)
Theorem served_key_tags (jwk : obj) :
  NoDup (map fst jwk) ->
  exists members,
    publicJwk (VKey jwk) = JObj members
    /\ obj_get "alg" members = Some (JStr "RS256")
    /\ obj_get "use" members = Some (JStr "sig")
    /\ forall k, k <> "alg" -> k <> "use" -> obj_get k members = obj_get k jwk.
Proof.
  intros ND.
  exists (obj_set "use" (JStr "sig")
            (obj_set "alg" (JStr CONSTANTS.ALGORITHM) (obj_spread jwk []))).
  split; [reflexivity|].
  split; [rewrite obj_get_set_ne by discriminate; apply obj_get_set_eq|].
  split; [apply obj_get_set_eq|].
  intros k H1 H2.
  rewrite !obj_get_set_ne by assumption.
  rewrite (obj_get_spread k jwk [] ND).
  destruct (obj_get k jwk); reflexivity.
Qed.

Lemma served_key_tags_witness :
  exists members,
    publicJwk (VKey [("kty", JStr "RSA"); ("alg", JStr "none")]) = JObj members
    /\ obj_get "alg" members = Some (JStr "RS256")
    /\ obj_get "kty" members = Some (JStr "RSA").
Proof.
  destruct (served_key_tags [("kty", JStr "RSA"); ("alg", JStr "none")])
    as (members & E & A & _ & K).
  - compute_done.
  - exists members. split; [exact E|]. split; [exact A|].
    rewrite K by discriminate. reflexivity.
Defined.

(** X22: the rotation interval grows with the token lifetime, and for a
    valid configuration the next rotation comes while the token issued now
    has at least as long to live as it has lived, and while the key stored
    now stays live for 1800 seconds more than that. *)
Theorem rotation_timing (config : AppConfig) :
  (forall x y, x <= y ->
     calculateRotationInterval x <= calculateRotationInterval y)
  /\ (10 <= expirationMinutes config ->
      let wait := calculateRotationInterval (expirationMinutes config) * 60 in
      wait <= expirationMinutes config * 60 - wait
      /\ keyTtlSeconds config - wait = 1800 + (expirationMinutes config * 60 - wait)).
Proof.
  unfold calculateRotationInterval, keyTtlSeconds,
    CONSTANTS.KEY_GRACE_PERIOD_MINUTES.
  split.
  - intros x y Hxy. pose proof (Z.div_le_mono x y 2 ltac:(lia) Hxy). lia.
  - intros Hv. cbv zeta.
    pose proof (Z.div_mod (expirationMinutes config) 2 ltac:(lia)).
    pose proof (Z.mod_pos_bound (expirationMinutes config) 2 ltac:(lia)).
    split; lia.
Qed.

Lemma rotation_timing_witness :
  calculateRotationInterval 11 * 60 <= 11 * 60 - calculateRotationInterval 11 * 60
  /\ keyTtlSeconds (mkConfig 11 None None None) = 2460.
Proof.
  destruct (proj2 (rotation_timing (mkConfig 11 None None None)) ltac:(cbn; lia))
    as [A B].
  split; [exact A | reflexivity].
Defined.
(** ** The fingerprint as a number *)

Lemma hash_loop_range s : forall h,
  - 2 ^ 31 <= h < 2 ^ 31 -> - 2 ^ 31 <= hash_loop h s < 2 ^ 31.
Proof.
  induction s as [|c s IH]; intros h Hh; simpl; [exact Hh|].
  apply IH. unfold hash_step. apply to_int32_range.
Qed.

(** X23: the fingerprint is the decimal rendering of a signed 32-bit
    integer, the one congruent modulo [2^32] to the base-31 polynomial of
    the code units of the serialised configuration; so there are at most
    [2^32] fingerprints, and two configurations share one exactly when
    their polynomials agree modulo [2^32]. *)
Theorem fingerprint_is_int32 (c1 c2 : AppConfig) :
  (exists z,
     hashConfig c1 = string_of_Z z
     /\ - 2 ^ 31 <= z < 2 ^ 31
     /\ z mod 2 ^ 32 = poly31 0 (configStr c1) mod 2 ^ 32)
  /\ (hashConfig c1 = hashConfig c2
      <-> poly31 0 (configStr c1) mod 2 ^ 32
          = poly31 0 (configStr c2) mod 2 ^ 32).
Proof.
  split; [|apply hashConfig_eq_poly].
  exists (hash_loop 0 (configStr c1)).
  split; [reflexivity|].
  split; [apply hash_loop_range; lia|].
  apply hash_loop_poly. reflexivity.
Qed.
